(** * The workflow runner of act: configuration, matrix filter, plan executor

    A shallow embedding of [pkg/runner/runner.go]: the [Config] record and its
    accessors ([GetToken], the network-mode predicates), the construction of a
    runner ([configure]), the matrix filter [selectMatrixes], the failure
    aggregator [handleFailure] and the stage builder of [NewPlanExecutor];
    and of [pkg/container/docker_network.go]: the executors that create and
    remove the network of a job.

    Go strings are byte strings, modelled by [string]; Go maps with string
    keys are [gmap string _]; a Go [error] is carried as its message. *)

From Stdlib Require Import ZArith Ascii String List Lia DecimalString DecimalZ
  DecimalPos Permutation.
From stdpp Require Import base option list strings gmap fin_maps sorting.

Local Open Scope string_scope.

(** ** Go built-ins used by the runner *)

(** A Go [error] value; [nil] is the absence of one. *)
Definition error : Type := string.

(** [m[k]] on a [map[string]string]: the zero value when the key is absent. *)
Definition map_index (m : gmap string string) (k : string) : string :=
  default "" (m !! k).

(** [strings.SplitN(s, ":", 2)]: cut at the first colon, when there is one.
    [cut_colon s] is the text before the first colon and the text after it. *)
Fixpoint cut_colon (s : string) : option (string * string) :=
  match s with
  | EmptyString => None
  | String a rest =>
      if Ascii.eqb a ":"%char then Some (EmptyString, rest)
      else match cut_colon rest with
           | Some (before, after) => Some (String a before, after)
           | None => None
           end
  end.

Definition SplitN_colon_2 (s : string) : list string :=
  match cut_colon s with
  | Some (before, after) => [before; after]
  | None => [s]
  end.

(** What a Go function with results [(T, error)] returns. *)
Inductive result (T : Type) :=
| Ok (value : T)
| Err (err : error).
Arguments Ok {T} value.
Arguments Err {T} err.

(** [fmt.Sprintf("%d", n)]. *)
Definition Sprintf_d (n : Z) : string := NilZero.string_of_int (Z.to_int n).

Fixpoint spaces (n : nat) : string :=
  match n with
  | O => EmptyString
  | S n' => String " "%char (spaces n')
  end.

(** ** Config *)

(** The fields of [Config] that the functions below read. *)
Record Config := mkConfig {
  EventPath : string;
  Inputs : gmap string string;
  Secrets : gmap string string;
  Matrix : gmap string (gmap string bool);
  EventJSON : string;
  ContainerNetworkMode : string
}.

Definition GetToken (c : Config) : string :=
  let token := map_index (Secrets c) "GITHUB_TOKEN" in
  if negb (String.eqb (map_index (Secrets c) "GITEA_TOKEN") "")
  then map_index (Secrets c) "GITEA_TOKEN"
  else token.

Definition IsNetworkModeHost (c : Config) : bool :=
  String.eqb (ContainerNetworkMode c) "host".

Definition IsNetworkModeNone (c : Config) : bool :=
  String.eqb (ContainerNetworkMode c) "none".

Definition IsNetworkModeBridge (c : Config) : bool :=
  String.eqb (ContainerNetworkMode c) "bridge".

Definition IsNetworkModeContainer (c : Config) : bool :=
  let parts := SplitN_colon_2 (ContainerNetworkMode c) in
  (1 <? length parts)%nat && String.eqb (nth 0 parts "") "container".

Definition IsNetworkUserDefined (c : Config) : bool :=
  negb (IsNetworkModeHost c) && negb (IsNetworkModeNone c)
  && negb (IsNetworkModeBridge c) && negb (IsNetworkModeContainer c).

(** ** Matrix points and the user filter *)

(** A matrix value (an [interface{}] in the source): the scalar kinds a
    matrix dimension holds. *)
Inductive Value :=
| VString (s : string)
| VInt (z : Z)
| VBool (b : bool).

(** [fmt.Sprintf("%v", val)] on those kinds. *)
Definition Sprintf_v (val : Value) : string :=
  match val with
  | VString s => s
  | VInt z => Sprintf_d z
  | VBool b => if b then "true" else "false"
  end.

(** One turn of [for key, val := range original] in [selectMatrixes], as a
    function of the variable [flag]. *)
Definition range_original (targetMatrixValues : gmap string (gmap string bool))
    (flag : bool) (entry : string * Value) : bool :=
  let '(key, val) := entry in
  match targetMatrixValues !! key with
  | Some allowedVals =>
      let valToString := Sprintf_v val in
      match allowedVals !! valToString with
      | Some _ => flag
      | None => false
      end
  | None => flag
  end.

(** The value of [flag] after the loop over the entries of [original]. *)
Definition keep_flag (targetMatrixValues : gmap string (gmap string bool))
    (original : gmap string Value) : bool :=
  fold_left (range_original targetMatrixValues) (map_to_list original) true.

Definition selectMatrixes (originalMatrixes : list (gmap string Value))
    (targetMatrixValues : gmap string (gmap string bool))
    : list (gmap string Value) :=
  fold_left
    (fun matrixes original =>
       if keep_flag targetMatrixValues original
       then (matrixes ++ [original])%list
       else matrixes)
    originalMatrixes [].

(** The reading of the filter by which every dimension of the filter has to
    be answered by the point: the point holds a value for it, and that value,
    formatted, is in the allowed set. *)
Definition every_filter_dimension_allowed
    (targetMatrixValues : gmap string (gmap string bool))
    (point : gmap string Value) : Prop :=
  forall dim allowedVals,
    targetMatrixValues !! dim = Some allowedVals ->
    exists val, point !! dim = Some val /\ is_Some (allowedVals !! Sprintf_v val).

(** What the loop checks: the dimensions the point and the filter share. *)
Definition shared_dimensions_allowed
    (targetMatrixValues : gmap string (gmap string bool))
    (point : gmap string Value) : Prop :=
  forall dim val allowedVals,
    point !! dim = Some val ->
    targetMatrixValues !! dim = Some allowedVals ->
    is_Some (allowedVals !! Sprintf_v val).

(** ** The plan and its jobs (package [model]) *)

(** A [yaml.Node], carried as its text: only the expression evaluator and
    [GetMatrixes] look inside. *)
Definition yamlNode : Type := string.

(** [MaxParallelString] is the [max-parallel] key as the workflow writes
    it, empty when the key is absent. *)
Record Strategy := mkStrategy {
  MaxParallel : Z;
  RawMatrix : yamlNode;
  MaxParallelString : string
}.

(** The fields of a job that the runner reads here; [Job_Strategy] is
    [None] for a nil [Strategy] pointer. *)
Record Job := mkJob {
  Job_Strategy : option Strategy;
  Result : string
}.

(** A run, with the job that [run.Job()] finds for its [JobID]. *)
Record Run := mkRun {
  JobID : string;
  Run_Job : Job
}.

(** [strconv.Atoi]: an optional sign and decimal digits; the value it yields
    with a syntax error is 0, and with a range error the nearest bound of
    [int]. *)
Definition clamp_int (n : Z) : Z :=
  Z.max (- 2 ^ 63) (Z.min (2 ^ 63 - 1) n).

Definition Atoi (s : string) : Z :=
  let '(negative, digits) :=
    match s with
    | String "-" rest => (true, rest)
    | String "+" rest => (false, rest)
    | _ => (false, s)
    end in
  match digits, NilEmpty.uint_of_string digits with
  | EmptyString, _ => 0%Z
  | _, None => 0%Z
  | _, Some d =>
      clamp_int (if negative : bool then - Z.of_uint d else Z.of_uint d)
  end.

(** Modelled from the spec: the method [GetMaxParallel] of [model.Strategy],
    which is not among the sources at hand. It is the
    "job.Strategy.MaxParallel (default 4)" of the plan executor: the
    [max-parallel] that the workflow writes, and 4 when it writes none. *)
Definition GetMaxParallel (strategy : Strategy) : Z :=
  let maxParallel := 4%Z in
  if negb (String.eqb (MaxParallelString strategy) "")
  then Atoi (MaxParallelString strategy)
  else maxParallel.

(** Modelled from the spec: what [GetMatrixes] of package [model] does to
    the job before it expands the matrix: a strategy, when there is one, gets
    [GetMaxParallel] as its [MaxParallel]. *)
Definition fill_MaxParallel (job : Job) : Job :=
  match Job_Strategy job with
  | Some strategy =>
      mkJob (Some (mkStrategy (GetMaxParallel strategy) (RawMatrix strategy)
                              (MaxParallelString strategy)))
            (Result job)
  | None => job
  end.

Record Stage := mkStage { Runs : list Run }.

Record Plan := mkPlan { Stages : list Stage }.

(** ** The runner and its run contexts *)

Record runnerImpl := mkRunner {
  config : Config;
  eventJSON : string
}.

(** The fields of [RunContext] that [newRunContext] and the plan executor
    set; [rc_Matrix] is [None] for a nil map. *)
Record RunContext := mkRunContext {
  rc_Config : Config;
  rc_Run : Run;
  rc_EventJSON : string;
  rc_Matrix : option (gmap string Value);
  Name : string;
  JobName : string
}.

Definition set_Name (rc : RunContext) (name : string) : RunContext :=
  mkRunContext (rc_Config rc) (rc_Run rc) (rc_EventJSON rc) (rc_Matrix rc)
               name (JobName rc).

Definition set_JobName (rc : RunContext) (name : string) : RunContext :=
  mkRunContext (rc_Config rc) (rc_Run rc) (rc_EventJSON rc) (rc_Matrix rc)
               (Name rc) name.

(** What the runner calls and this file does not define: the file system, the
    encoders of the Go library, and the methods of [model] and of
    [RunContext] declared in other files. *)
Class Collaborators := {
  (** [os.ReadFile] on the files present when the runner is built *)
  ReadFile : string -> result string;
  (** [encoding/json] on a string: the quoted, escaped literal *)
  json_string : string -> string;
  (** [utf8.RuneCountInString], by which [fmt] measures a padded string *)
  RuneCountInString : string -> nat;
  (** the method [String] of [model.Run] *)
  Run_String : Run -> string;
  (** the method [String] of [RunContext] *)
  RunContext_String : RunContext -> string;
  (** [rc.NewExpressionEvaluator(ctx).Interpolate(ctx, s)] *)
  Interpolate : RunContext -> string -> string;
  (** [rc.NewExpressionEvaluator(ctx).EvaluateYamlNode(ctx, &node)]: the node
      as the call leaves it; its error is only logged *)
  EvaluateYamlNode : RunContext -> yamlNode -> yamlNode;
  (** [job.GetMatrixes()]: the job as the call leaves it, and its results *)
  GetMatrixes : Job -> Job * result (list (gmap string Value))
}.

(** A job executor of the stage (the closure appended to [stageExecutor]): a
    function of the value that the captured variable [maxJobNameLen] has when
    the executor is called. It yields what is handed to [WithJobLogger]. *)
Record JobLaunch := mkJobLaunch {
  launch_JobID : string;
  launch_jobName : string;
  launch_matrix : gmap string Value;
  launch_rc : RunContext
}.

Definition JobExecutor : Type := Z -> JobLaunch.

(** [common.NewParallelExecutor(parallel, executors...)], as built. *)
Record ParallelExecutor := mkParallel {
  parallel : Z;
  executors : list JobExecutor
}.

(** The keys of a map in increasing byte order, as [encoding/json] writes
    them. *)
Definition key_le {A : Type} (a b : string * A) : Prop :=
  String.leb (fst a) (fst b) = true.

#[local] Instance key_le_dec {A : Type} (a b : string * A) :
  Decision (key_le a b).
Proof. unfold key_le. apply _. Defined.

Definition sorted_entries {A : Type} (m : gmap string A) : list (string * A) :=
  merge_sort key_le (map_to_list m).

Section Runner.
Context `{Collaborators}.

(** [fmt.Sprintf("%-*s", width, s)]: [s] followed by spaces up to [width]
    runes. *)
Definition Sprintf_left_justified (width : Z) (s : string) : string :=
  s ++ spaces (Z.to_nat (Z.abs width - Z.of_nat (RuneCountInString s))).

(** *** Construction of the runner *)

Definition marshal_object {A : Type} (marshal_value : A -> string)
    (m : gmap string A) : string :=
  "{" ++ String.concat ","
           (map (fun entry => json_string (fst entry) ++ ":"
                              ++ marshal_value (snd entry))
                (sorted_entries m))
      ++ "}".

(** [json.Marshal] on a [map[string]map[string]string]: objects with their
    keys in increasing order; it does not fail on maps of strings. *)
Definition json_Marshal (eventMap : gmap string (gmap string string))
    : result string :=
  Ok (marshal_object (marshal_object json_string) eventMap).

Definition configure (runner : runnerImpl) : result runnerImpl :=
  let runner := mkRunner (config runner) "{}" in
  if negb (String.eqb (EventJSON (config runner)) "") then
    Ok (mkRunner (config runner) (EventJSON (config runner)))
  else if negb (String.eqb (EventPath (config runner)) "") then
    match ReadFile (EventPath (config runner)) with
    | Err err => Err err
    | Ok eventJSONBytes => Ok (mkRunner (config runner) eventJSONBytes)
    end
  else if negb (size (Inputs (config runner)) =? 0)%nat then
    let eventMap : gmap string (gmap string string) :=
      {[ "inputs" := Inputs (config runner) ]} in
    match json_Marshal eventMap with
    | Err err => Err err
    | Ok eventJSON => Ok (mkRunner (config runner) eventJSON)
    end
  else Ok runner.

Definition New (runnerConfig : Config) : result runnerImpl :=
  configure (mkRunner runnerConfig "").

(** *** Run contexts *)

Definition newRunContext (runner : runnerImpl) (run : Run)
    (matrix : option (gmap string Value)) : RunContext :=
  let rc := mkRunContext (config runner) run (eventJSON runner) matrix "" "" in
  set_Name rc (Interpolate rc (Run_String run)).

(** *** The failure aggregator *)

Fixpoint range_Runs_failure (runs : list Run) : option error :=
  match runs with
  | [] => None
  | run :: rest =>
      if String.eqb (Result (Run_Job run)) "failure"
      then Some ("Job '" ++ Run_String run ++ "' failed")
      else range_Runs_failure rest
  end.

Fixpoint range_Stages_failure (stages : list Stage) : option error :=
  match stages with
  | [] => None
  | stage :: rest =>
      match range_Runs_failure (Runs stage) with
      | Some err => Some err
      | None => range_Stages_failure rest
      end
  end.

(** The error that the executor [handleFailure(plan)] returns when it is
    called on the plan in the given state; [None] is nil. *)
Definition handleFailure (plan : Plan) : option error :=
  range_Stages_failure (Stages plan).

(** The runs of a plan in plan order. *)
Definition plan_runs (plan : Plan) : list Run :=
  concat (map Runs (Stages plan)).

Definition run_failed (run : Run) : Prop := Result (Run_Job run) = "failure".

Definition failure_of (run : Run) : error :=
  "Job '" ++ Run_String run ++ "' failed".

(** [first_failure runs run]: [run] is the first failed run of [runs]. *)
Definition first_failure (runs : list Run) (run : Run) : Prop :=
  exists before after,
    runs = (before ++ run :: after)%list
    /\ Forall (fun r => ~ run_failed r) before
    /\ run_failed run.

(** *** The plan executor *)

(** Lines 158 to 163 of [NewPlanExecutor]: the job after the matrix of its
    strategy, when it has one, has been evaluated in place. *)
Definition evaluate_strategy (runner : runnerImpl) (run : Run) : Job :=
  let job := Run_Job run in
  match Job_Strategy job with
  | Some strategy =>
      let strategyRc := newRunContext runner run None in
      mkJob (Some (mkStrategy (MaxParallel strategy)
                              (EvaluateYamlNode strategyRc (RawMatrix strategy))
                              (MaxParallelString strategy)))
            (Result job)
  | None => job
  end.

(** Lines 165 to 170: the job as [GetMatrixes] leaves it, and [matrixes]
    (nil, the empty list, when [GetMatrixes] fails). *)
Definition filtered_matrixes (runner : runnerImpl) (run : Run)
    : Job * list (gmap string Value) :=
  let '(job, got) := GetMatrixes (evaluate_strategy runner run) in
  match got with
  | Err _ => (job, [])
  | Ok m => (job, selectMatrixes m (Matrix (config runner)))
  end.

(** Lines 173 to 180. *)
Definition maxParallel_of (job : Job) (matrixes : list (gmap string Value)) : Z :=
  let maxParallel := 4%Z in
  let maxParallel :=
    match Job_Strategy job with
    | Some strategy => MaxParallel strategy
    | None => maxParallel
    end in
  if (Z.of_nat (length matrixes) <? maxParallel)%Z
  then Z.of_nat (length matrixes)
  else maxParallel.

(** One turn of [for i, matrix := range matrixes], on the variables
    [maxJobNameLen] and [stageExecutor]; [len_matrixes] is [len(matrixes)]. *)
Definition range_matrixes (runner : runnerImpl) (run : Run) (len_matrixes : nat)
    (vars : Z * list JobExecutor) (entry : nat * gmap string Value)
    : Z * list JobExecutor :=
  let '(maxJobNameLen, stageExecutor) := vars in
  let '(i, matrix) := entry in
  let rc := newRunContext runner run (Some matrix) in
  let rc := set_JobName rc (Name rc) in
  let rc :=
    if (1 <? len_matrixes)%nat
    then set_Name rc (Name rc ++ "-" ++ Sprintf_d (Z.of_nat i + 1))
    else rc in
  let maxJobNameLen :=
    if (maxJobNameLen <? Z.of_nat (String.length (RunContext_String rc)))%Z
    then Z.of_nat (String.length (RunContext_String rc))
    else maxJobNameLen in
  (maxJobNameLen,
   (stageExecutor ++
    [fun maxJobNameLen : Z =>
       let jobName := Sprintf_left_justified maxJobNameLen (RunContext_String rc) in
       mkJobLaunch (JobID (rc_Run rc)) jobName matrix rc])%list).

(** [for i, matrix := range matrixes]: the points with their indexes. *)
Definition indexed {A : Type} (l : list A) : list (nat * A) :=
  combine (seq 0 (length l)) l.

(** One turn of [for _, run := range stage.Runs], on the variables
    [maxJobNameLen] and [pipeline]. *)
Definition range_Runs (runner : runnerImpl)
    (vars : Z * list ParallelExecutor) (run : Run)
    : Z * list ParallelExecutor :=
  let '(maxJobNameLen, pipeline) := vars in
  let stageExecutor : list JobExecutor := [] in
  let '(job, matrixes) := filtered_matrixes runner run in
  let maxParallel := maxParallel_of job matrixes in
  let '(maxJobNameLen, stageExecutor) :=
    fold_left (range_matrixes runner run (length matrixes))
              (indexed matrixes) (maxJobNameLen, stageExecutor) in
  (maxJobNameLen, (pipeline ++ [mkParallel maxParallel stageExecutor])%list).

(** Modelled from the spec: [common.NewParallelExecutor] of package
    [common], called on the executors it was built from. It runs every one
    of them, at most [parallel] at a time, and waits for all of them. Here
    each job executor reads [maxJobNameLen] when it starts; the launches are
    listed in the order of construction. *)
Definition run_ParallelExecutor (maxJobNameLen : Z) (p : ParallelExecutor)
    : list JobLaunch :=
  map (fun executor : JobExecutor => executor maxJobNameLen) (executors p).

(** The executor of one stage (the closure appended to [stagePipeline]),
    called when [maxJobNameLen] has the given value: the value it leaves in
    [maxJobNameLen], and the jobs it launches. The variable is not written
    while the jobs run. *)
Definition stage_executor (runner : runnerImpl) (stage : Stage)
    (maxJobNameLen : Z) : Z * list JobLaunch :=
  let '(maxJobNameLen, pipeline) :=
    fold_left (range_Runs runner) (Runs stage) (maxJobNameLen, []) in
  (maxJobNameLen, concat (map (run_ParallelExecutor maxJobNameLen) pipeline)).

(** Modelled from the spec: [common.NewPipelineExecutor] of package
    [common] runs the stage executors in order. The launches of each stage
    are listed for a pipeline that runs to its end; a stage that fails ends
    the pipeline there, so an execution yields a prefix of this list. *)
Fixpoint run_stagePipeline (runner : runnerImpl) (stages : list Stage)
    (maxJobNameLen : Z) : list (list JobLaunch) :=
  match stages with
  | [] => []
  | stage :: rest =>
      let '(maxJobNameLen, launches) :=
        stage_executor runner stage maxJobNameLen in
      launches :: run_stagePipeline runner rest maxJobNameLen
  end.

(** The jobs launched by the stage pipeline of [NewPlanExecutor(plan)],
    stage by stage; [maxJobNameLen] starts at 0. *)
Definition NewPlanExecutor_launches (runner : runnerImpl) (plan : Plan)
    : list (list JobLaunch) :=
  run_stagePipeline runner (Stages plan) 0.

(** The greatest length of the formatted names of the run contexts of the
    given launches, and at least [start]. *)
Definition max_name_len (start : Z) (launches : list JobLaunch) : Z :=
  fold_right Z.max start
    (map (fun l => Z.of_nat (String.length (RunContext_String (launch_rc l))))
         launches).

(** The length of the formatted name of the run context of an executor. *)
Definition executor_name_len (executor : JobExecutor) : Z :=
  Z.of_nat (String.length (RunContext_String (launch_rc (executor 0%Z)))).

(** An executor pads the formatted name of one run context, the same at
    every call, to the width it is called with. *)
Definition pads_its_name (executor : JobExecutor) : Prop :=
  forall width : Z,
    launch_rc (executor width) = launch_rc (executor 0%Z)
    /\ launch_jobName (executor width)
       = Sprintf_left_justified width
           (RunContext_String (launch_rc (executor width))).


End Runner.

(** ** Docker networks (package [container]) *)

(** The fields of [types.NetworkCreate] that are set here; [Options] is
    [None] for a nil map. *)
Record NetworkCreate := mkNetworkCreate {
  Driver : string;
  Scope : string;
  Options : option (gmap string string)
}.

(** A request sent to the docker daemon through the client. *)
Inductive ClientCall :=
| CallNetworkInspect (networkID : string) (scope : string)
| CallNetworkCreate (name : string) (options : NetworkCreate)
| CallNetworkRemove (networkID : string).

(** What the docker client answers while an executor runs. *)
Class DockerClient := {
  (** the error of [GetDockerClient(ctx)]; [None] when a client is obtained *)
  GetDockerClient : option error;
  (** [cli.NetworkInspect(ctx, networkID, {Scope: scope})]: the [Options] of
      the network found *)
  NetworkInspect : string -> string -> result (gmap string string);
  (** the error of [cli.NetworkCreate(ctx, name, options)] *)
  NetworkCreate_error : string -> NetworkCreate -> option error;
  (** the error of [cli.NetworkRemove(ctx, networkID)] *)
  NetworkRemove_error : string -> option error
}.

Section NetworkExecutors.
Context `{DockerClient}.

(** [for _, optKey := range inheritDriverOpts], on the map
    [createOpts.Options]. *)
Definition range_inheritDriverOpts (networkOptions : gmap string string)
    (inheritDriverOpts : list string) (options : gmap string string)
    : gmap string string :=
  fold_left
    (fun options optKey =>
       match networkOptions !! optKey with
       | Some val => <[optKey := val]> options
       | None => options
       end)
    inheritDriverOpts options.

(** The executor returned by [NewDockerNetworkCreateExecutor], called: the
    requests it sends, in order, and the error it returns. *)
Definition NewDockerNetworkCreateExecutor (name : string)
    (inheritDriverOpts : list string) : list ClientCall * option error :=
  match GetDockerClient with
  | Some err => ([], Some err)
  | None =>
      let createOpts := mkNetworkCreate "bridge" "local" None in
      if (0 <? length inheritDriverOpts)%nat then
        match NetworkInspect "bridge" "local" with
        | Err err => ([CallNetworkInspect "bridge" "local"], Some err)
        | Ok networkOptions =>
            let createOpts :=
              mkNetworkCreate (Driver createOpts) (Scope createOpts)
                (Some (range_inheritDriverOpts networkOptions
                         inheritDriverOpts ∅)) in
            ([CallNetworkInspect "bridge" "local";
              CallNetworkCreate name createOpts],
             NetworkCreate_error name createOpts)
        end
      else ([CallNetworkCreate name createOpts],
            NetworkCreate_error name createOpts)
  end.

(** The same executor in the revision of the file that allocates
    [createOpts.Options] before it inspects the bridge network. *)
Definition NewDockerNetworkCreateExecutor_allocating_first (name : string)
    (inheritDiverOpts : list string) : list ClientCall * option error :=
  match GetDockerClient with
  | Some err => ([], Some err)
  | None =>
      let createOpts := mkNetworkCreate "bridge" "local" None in
      if (0 <? length inheritDiverOpts)%nat then
        let createOpts :=
          mkNetworkCreate (Driver createOpts) (Scope createOpts) (Some ∅) in
        match NetworkInspect "bridge" "local" with
        | Err err => ([CallNetworkInspect "bridge" "local"], Some err)
        | Ok networkOptions =>
            let createOpts :=
              mkNetworkCreate (Driver createOpts) (Scope createOpts)
                (Some (range_inheritDriverOpts networkOptions
                         inheritDiverOpts
                         (default ∅ (Options createOpts)))) in
            ([CallNetworkInspect "bridge" "local";
              CallNetworkCreate name createOpts],
             NetworkCreate_error name createOpts)
        end
      else ([CallNetworkCreate name createOpts],
            NetworkCreate_error name createOpts)
  end.

(** The executor returned by [NewDockerNetworkRemoveExecutor], called. *)
Definition NewDockerNetworkRemoveExecutor (name : string)
    : list ClientCall * option error :=
  match GetDockerClient with
  | Some err => ([], Some err)
  | None => ([CallNetworkRemove name], NetworkRemove_error name)
  end.

(** A request that touches no network but [name], apart from reading the
    local bridge network, and creates only local bridge networks. *)
Definition call_confined_to (name : string) (call : ClientCall) : Prop :=
  match call with
  | CallNetworkInspect networkID scope => networkID = "bridge" /\ scope = "local"
  | CallNetworkCreate created options =>
      created = name /\ Driver options = "bridge" /\ Scope options = "local"
  | CallNetworkRemove networkID => networkID = name
  end.

Definition is_create (call : ClientCall) : bool :=
  match call with CallNetworkCreate _ _ => true | _ => false end.

Definition is_inspect (call : ClientCall) : bool :=
  match call with CallNetworkInspect _ _ => true | _ => false end.

End NetworkExecutors.

(** ** Notions of the properties of the filter and of the plan executor *)

(** Two points that are alike once their values are formatted. *)
Definition same_formatted (p q : gmap string Value) : Prop :=
  Sprintf_v <$> p = Sprintf_v <$> q.

(** Two filters with the same dimensions and, for each, the same allowed
    texts, whatever booleans these are mapped to. *)
Definition same_allowed_keys (F G : gmap string (gmap string bool)) : Prop :=
  forall dim : string,
    (dom <$> F !! dim : option (gset string)) = (dom <$> G !! dim).

Section PlanExecutorNotions.
Context `{Collaborators}.

(** [executor_of_point runner run n (i, matrix) executor]: at every call,
    [executor] launches the job of [run] for the point [matrix], the point of
    index [i] among the [n] filtered points of the run; [base] is the text of
    [run.String()] interpolated in a run context of that point which has no
    name yet. *)
Definition executor_of_point (runner : runnerImpl) (run : Run) (n : nat)
    (entry : nat * gmap string Value) (executor : JobExecutor) : Prop :=
  let base :=
    Interpolate
      (mkRunContext (config runner) run (eventJSON runner) (Some (snd entry))
                    "" "")
      (Run_String run) in
  forall width : Z,
    launch_JobID (executor width) = JobID run
    /\ launch_matrix (executor width) = snd entry
    /\ rc_Run (launch_rc (executor width)) = run
    /\ rc_Matrix (launch_rc (executor width)) = Some (snd entry)
    /\ rc_Config (launch_rc (executor width)) = config runner
    /\ rc_EventJSON (launch_rc (executor width)) = eventJSON runner
    /\ JobName (launch_rc (executor width)) = base
    /\ Name (launch_rc (executor width))
       = (if (1 <? n)%nat
          then base ++ "-" ++ Sprintf_d (Z.of_nat (fst entry) + 1)
          else base).

(** The width that the jobs of the stage of index [k] are padded to. *)
Definition stage_width (runner : runnerImpl) (plan : Plan) (k : nat) : Z :=
  max_name_len 0 (concat (take (S k) (NewPlanExecutor_launches runner plan))).

End PlanExecutorNotions.

(** ** Auxiliary notions of the statements *)

(** The five classifications of a network mode, in the order host, none,
    bridge, container, user-defined. *)
Definition network_classes (c : Config) : list bool :=
  [IsNetworkModeHost c; IsNetworkModeNone c; IsNetworkModeBridge c;
   IsNetworkModeContainer c; IsNetworkUserDefined c].

Definition count_true (l : list bool) : nat :=
  length (List.filter (fun b : bool => b) l).

(** A character of a decimal numeral: a digit or the sign. *)
Definition decimal_char (a : ascii) : bool :=
  Ascii.eqb a "-"%char
  || ((48 <=? nat_of_ascii a)%nat && (nat_of_ascii a <=? 57)%nat).

(** ** Sample inputs *)

Definition config_with_secrets (secrets : gmap string string) : Config :=
  mkConfig "" ∅ secrets ∅ "" "".

Definition config_with_network (mode : string) : Config :=
  mkConfig "" ∅ ∅ ∅ "" mode.

Definition config_with_event (eventJSON eventPath : string)
    (inputs : gmap string string) : Config :=
  mkConfig eventPath inputs ∅ ∅ eventJSON "".

(** A JSON string literal of a text in which nothing has to be escaped. *)
Definition quote_plain (s : string) : string :=
  String "034"%char (s ++ String "034"%char EmptyString).

Definition matrix_os (os : string) : gmap string Value :=
  {[ "os" := VString os ]}.

(** Collaborators for the examples: one event file, names that need no
    interpolation, and a matrix of three points for the strategy [os] and of
    the single empty point otherwise. *)
Definition sample_collaborators : Collaborators := {|
  ReadFile := fun path =>
    if String.eqb path "/tmp/x.json"
    then Ok ("{" ++ quote_plain "b" ++ ":2}")
    else Err "open: no such file or directory";
  json_string := quote_plain;
  RuneCountInString := String.length;
  Run_String := JobID;
  RunContext_String := Name;
  Interpolate := fun _ s => s;
  EvaluateYamlNode := fun _ node => node;
  GetMatrixes := fun job =>
    (fill_MaxParallel job,
     Ok (match Job_Strategy job with
         | Some strategy =>
             if String.eqb (RawMatrix strategy) "os"
             then [matrix_os "a"; matrix_os "b"; matrix_os "c"]
             else [∅]
         | None => [∅]
         end))
|}.

Definition sample_run (id result : string) (strategy : option Strategy) : Run :=
  mkRun id (mkJob strategy result).


Definition plan_short_then_long : Plan :=
  mkPlan [mkStage [sample_run "a" "" None];
          mkStage [sample_run "longer-name" "" None]].

Definition sample_runner : runnerImpl :=
  mkRunner (config_with_event "" "" ∅) "{}".

Definition point_os_a : gmap string Value := {[ "os" := VString "a" ]}.

Definition filter_node_14 : gmap string (gmap string bool) :=
  {[ "node" := {[ "14" := true ]} ]}.

Definition run_build_os : Run :=
  sample_run "build" "" (Some (mkStrategy 2 "os" "2")).

(** The sample collaborators, but [GetMatrixes] fails. *)
Definition collaborators_without_matrix : Collaborators := {|
  ReadFile := @ReadFile sample_collaborators;
  json_string := @json_string sample_collaborators;
  RuneCountInString := @RuneCountInString sample_collaborators;
  Run_String := @Run_String sample_collaborators;
  RunContext_String := @RunContext_String sample_collaborators;
  Interpolate := @Interpolate sample_collaborators;
  EvaluateYamlNode := @EvaluateYamlNode sample_collaborators;
  GetMatrixes := fun job => (job, Err "yaml: cannot decode the matrix")
|}.

Definition point_v_14_int : gmap string Value := {[ "v" := VInt 14 ]}.

Definition point_v_14_string : gmap string Value := {[ "v" := VString "14" ]}.

(** A daemon whose bridge network has two options, and that accepts every
    request. *)
Definition sample_client : DockerClient := {|
  GetDockerClient := None;
  NetworkInspect := fun _ _ =>
    Ok {[ "com.docker.network.driver.mtu" := "1500";
          "com.docker.network.bridge.name" := "docker0" ]};
  NetworkCreate_error := fun _ _ => None;
  NetworkRemove_error := fun _ => None
|}.

(** A daemon that cannot be reached. *)
Definition unreachable_client : DockerClient := {|
  GetDockerClient := Some "Cannot connect to the Docker daemon";
  NetworkInspect := fun _ _ => Err "Cannot connect to the Docker daemon";
  NetworkCreate_error := fun _ _ => Some "Cannot connect to the Docker daemon";
  NetworkRemove_error := fun _ => Some "Cannot connect to the Docker daemon"
|}.

(** *** The loop over one point *)

Lemma range_original_false F l :
  fold_left (range_original F) l false = false.
Proof.
  induction l as [|[key val] l IH]; simpl; [reflexivity|].
  destruct (F !! key) as [allowed|]; [|exact IH].
  destruct (allowed !! Sprintf_v val); exact IH.
Qed.

Lemma range_original_true F l :
  fold_left (range_original F) l true = true <->
  Forall (fun entry => range_original F true entry = true) l.
Proof.
  induction l as [|entry l IH]; simpl.
  - split; [constructor | reflexivity].
  - destruct (range_original F true entry) eqn:E.
    + rewrite IH. split; [intros H; constructor; assumption|].
      intros H. inversion H; assumption.
    + rewrite range_original_false. split; [discriminate|].
      intros H. inversion H; congruence.
Qed.

Lemma range_original_entry F key val :
  range_original F true (key, val) = true <->
  (forall allowedVals, F !! key = Some allowedVals ->
                       is_Some (allowedVals !! Sprintf_v val)).
Proof.
  unfold range_original.
  destruct (F !! key) as [allowed|] eqn:EF.
  - destruct (allowed !! Sprintf_v val) eqn:EA.
    + split; [|reflexivity]. intros _ a Ha. injection Ha as <-. eauto.
    + split; [discriminate|]. intros H.
      destruct (H allowed eq_refl) as [x Hx]. congruence.
  - split; [|reflexivity]. intros _ a Ha. discriminate.
Qed.

Lemma keep_flag_spec F point :
  keep_flag F point = true <-> shared_dimensions_allowed F point.
Proof.
  unfold keep_flag, shared_dimensions_allowed.
  rewrite range_original_true, Forall_forall. split.
  - intros H dim val allowed Hp HF.
    apply (proj1 (range_original_entry F dim val)); [|exact HF].
    apply H. apply elem_of_map_to_list. exact Hp.
  - intros H [key val] Hin. apply elem_of_map_to_list in Hin.
    apply range_original_entry. intros allowed HF. eapply H; eassumption.
Qed.

(** *** The loop over the points *)

Lemma selectMatrixes_acc F M acc :
  fold_left
    (fun matrixes original =>
       if keep_flag F original then (matrixes ++ [original])%list else matrixes)
    M acc
  = (acc ++ List.filter (keep_flag F) M)%list.
Proof.
  revert acc. induction M as [|p M IH]; intros acc; simpl.
  - symmetry. apply app_nil_r.
  - rewrite IH. destruct (keep_flag F p) eqn:E; [|reflexivity].
    rewrite <- app_assoc. reflexivity.
Qed.

Lemma selectMatrixes_filter M F :
  selectMatrixes M F = List.filter (keep_flag F) M.
Proof. unfold selectMatrixes. apply selectMatrixes_acc. Qed.

Lemma selectMatrixes_elem M F p :
  p ∈ selectMatrixes M F <-> p ∈ M /\ shared_dimensions_allowed F p.
Proof.
  rewrite selectMatrixes_filter, list_elem_of_In, filter_In.
  rewrite <- list_elem_of_In, keep_flag_spec. tauto.
Qed.

Lemma keep_flag_empty point : keep_flag ∅ point = true.
Proof.
  apply keep_flag_spec. intros dim val allowed _ HF.
  rewrite lookup_empty in HF. discriminate.
Qed.

Lemma selectMatrixes_empty_filter M : selectMatrixes M ∅ = M.
Proof.
  rewrite selectMatrixes_filter.
  induction M as [|p M IH]; [reflexivity|].
  simpl. rewrite keep_flag_empty. congruence.
Qed.

(** *** The formatter *)

Lemma string_of_uint_decimal d :
  forallb decimal_char (list_ascii_of_string (NilEmpty.string_of_uint d)) = true.
Proof. induction d; simpl; auto. Qed.

Lemma Sprintf_d_decimal z :
  forallb decimal_char (list_ascii_of_string (Sprintf_d z)) = true.
Proof.
  unfold Sprintf_d, NilZero.string_of_int, NilZero.string_of_uint.
  destruct (Z.to_int z) as [d|d]; destruct d; simpl;
    auto using string_of_uint_decimal.
Qed.

(** C3 (as amended): [selectMatrixes] keeps the points of the candidate list,
    in their order, for which every dimension that the point and the filter
    both have holds a value whose formatted text is a key of the filter's
    allowed set; a dimension that the filter or the point lacks constrains
    nothing. The formatter writes a string verbatim, a boolean as true or
    false, an integer as a decimal numeral (digits and a sign only). *)
Theorem selectMatrixes_keeps_shared_dimensions :
  (forall M F,
      selectMatrixes M F = List.filter (keep_flag F) M
      /\ forall p, (keep_flag F p = true <-> shared_dimensions_allowed F p)
                   /\ (p ∈ selectMatrixes M F <->
                       p ∈ M /\ shared_dimensions_allowed F p))
  /\ (forall s, Sprintf_v (VString s) = s)
  /\ Sprintf_v (VBool true) = "true" /\ Sprintf_v (VBool false) = "false"
  /\ (forall z, Sprintf_v (VInt z) = Sprintf_d z
                /\ forallb decimal_char
                     (list_ascii_of_string (Sprintf_v (VInt z))) = true)
  /\ Sprintf_v (VInt 14) = "14" /\ Sprintf_v (VInt (-3)) = "-3"
  /\ Sprintf_v (VInt 0) = "0".
Proof.
  split; [|repeat split; try reflexivity; apply Sprintf_d_decimal].
  intros M F. split; [apply selectMatrixes_filter|].
  intros p. split; [apply keep_flag_spec | apply selectMatrixes_elem].
Qed.

(** C3, counterexample: a point with no [node] dimension is kept under a
    filter on [node], although it holds no value that the filter allows. *)
Lemma selectMatrixes_keeps_point_without_filter_dimension :
  selectMatrixes [point_os_a] filter_node_14 = [point_os_a]
  /\ ~ every_filter_dimension_allowed filter_node_14 point_os_a.
Proof.
  split; [vm_compute; reflexivity|].
  intros Hall.
  destruct (Hall "node" {[ "14" := true ]} eq_refl) as (val & Hval & _).
  vm_compute in Hval. discriminate.
Qed.

(** C4: the points that a filter keeps are a sub-list, in the same order, of
    the points that the empty filter keeps, and the empty filter keeps the
    whole matrix. *)
Theorem selectMatrixes_monotone (M : list (gmap string Value))
    (F : gmap string (gmap string bool)) :
  selectMatrixes M F `sublist_of` selectMatrixes M ∅
  /\ selectMatrixes M ∅ = M.
Proof.
  split; [|apply selectMatrixes_empty_filter].
  rewrite selectMatrixes_empty_filter, selectMatrixes_filter.
  induction M as [|p M IH]; simpl; [constructor|].
  destruct (keep_flag F p); [apply sublist_skip | apply sublist_cons]; exact IH.
Qed.

(** C9: a dimension of the filter that a point does not have constrains
    nothing for that point: the point is kept exactly when it is a candidate
    and its other filtered dimensions pass, which is also what the filter
    without that dimension keeps. *)
Theorem selectMatrixes_absent_dimension_unconstrained
    (M : list (gmap string Value)) (F : gmap string (gmap string bool))
    (p : gmap string Value) (dim : string) :
  p !! dim = None ->
  (p ∈ selectMatrixes M F <->
   p ∈ M /\ forall other val allowedVals,
              other <> dim -> p !! other = Some val ->
              F !! other = Some allowedVals ->
              is_Some (allowedVals !! Sprintf_v val))
  /\ (p ∈ selectMatrixes M F <-> p ∈ selectMatrixes M (delete dim F)).
Proof.
  intros Hnone.
  assert (Hshared : shared_dimensions_allowed F p <->
                    forall other val allowedVals,
                      other <> dim -> p !! other = Some val ->
                      F !! other = Some allowedVals ->
                      is_Some (allowedVals !! Sprintf_v val)).
  { split.
    - intros Hs other val allowed _ Hp HF. eapply Hs; eassumption.
    - intros Hs other val allowed Hp HF. eapply Hs; try eassumption.
      intros ->. congruence. }
  split.
  - rewrite selectMatrixes_elem, Hshared. reflexivity.
  - rewrite !selectMatrixes_elem, Hshared.
    split; intros [Hin Hs]; split; try exact Hin.
    + intros other val allowed Hp HF.
      destruct (decide (other = dim)) as [->|Hne]; [congruence|].
      rewrite lookup_delete_ne in HF by congruence. eapply Hs; eassumption.
    + intros other val allowed Hne Hp HF.
      eapply Hs; [exact Hp|]. rewrite lookup_delete_ne by congruence. exact HF.
Qed.

Lemma selectMatrixes_absent_dimension_unconstrained_witness :
  point_os_a !! "node" = None
  /\ point_os_a ∈ selectMatrixes [point_os_a] filter_node_14.
Proof.
  split; [reflexivity|].
  apply (proj1 (selectMatrixes_absent_dimension_unconstrained
                  [point_os_a] filter_node_14 point_os_a "node" eq_refl)).
  split; [left|].
  intros other val allowed Hne _ HF.
  unfold filter_node_14 in HF.
  rewrite lookup_singleton_ne in HF by congruence. discriminate.
Defined.

(** *** Token and network mode *)

(** C6: [GetToken] is the secret [GITEA_TOKEN] when that is not empty and the
    secret [GITHUB_TOKEN] otherwise; with no secrets it is the empty
    string. *)
Theorem GetToken_resolution (c : Config) :
  (map_index (Secrets c) "GITEA_TOKEN" <> "" ->
   GetToken c = map_index (Secrets c) "GITEA_TOKEN")
  /\ (map_index (Secrets c) "GITEA_TOKEN" = "" ->
      GetToken c = map_index (Secrets c) "GITHUB_TOKEN")
  /\ (Secrets c = ∅ -> GetToken c = "").
Proof.
  unfold GetToken. repeat split.
  - intros Hne. apply String.eqb_neq in Hne. rewrite Hne. reflexivity.
  - intros Heq. rewrite Heq. reflexivity.
  - intros ->. reflexivity.
Qed.

Lemma GetToken_resolution_witness :
  GetToken (config_with_secrets {[ "GITEA_TOKEN" := "g"; "GITHUB_TOKEN" := "h" ]})
  = "g"
  /\ GetToken (config_with_secrets {[ "GITHUB_TOKEN" := "h" ]}) = "h"
  /\ GetToken (config_with_secrets ∅) = "".
Proof.
  split; [|split].
  - etransitivity.
    + apply (proj1 (GetToken_resolution
                      (config_with_secrets
                         {[ "GITEA_TOKEN" := "g"; "GITHUB_TOKEN" := "h" ]}))).
      vm_compute. discriminate.
    + vm_compute. reflexivity.
  - etransitivity.
    + apply (proj1 (proj2 (GetToken_resolution
                             (config_with_secrets {[ "GITHUB_TOKEN" := "h" ]})))).
      vm_compute. reflexivity.
    + vm_compute. reflexivity.
  - apply (proj2 (proj2 (GetToken_resolution (config_with_secrets ∅)))).
    reflexivity.
Defined.

Example GetToken_gitea_only :
  GetToken (config_with_secrets {[ "GITEA_TOKEN" := "g" ]}) = "g".
Proof. vm_compute. reflexivity. Qed.

Lemma append_String a s t : String a s ++ t = String a (s ++ t).
Proof. reflexivity. Qed.

Lemma append_Empty t : EmptyString ++ t = t.
Proof. reflexivity. Qed.

Lemma cut_colon_Some s before after :
  cut_colon s = Some (before, after) <->
  s = before ++ ":" ++ after
  /\ ~ In ":"%char (list_ascii_of_string before).
Proof.
  revert before. induction s as [|a s IH]; intros before; simpl.
  - split; [discriminate|]. intros [Heq _].
    destruct before; discriminate.
  - destruct (Ascii.eqb_spec a ":"%char) as [->|Hne].
    + split.
      * intros [= <- <-]. split; [reflexivity | intros []].
      * intros [Heq Hnot]. destruct before as [|b before].
        -- rewrite append_Empty, append_String, append_Empty in Heq.
           congruence.
        -- rewrite append_String in Heq. injection Heq as <- _.
           simpl in Hnot. tauto.
    + destruct (cut_colon s) as [[b' a']|] eqn:Hcut.
      * split.
        -- intros [= <- <-]. destruct (proj1 (IH b') eq_refl) as [-> Hnot].
           split; [reflexivity|]. simpl. intros [|]; [congruence | tauto].
        -- intros [Heq Hnot]. destruct before as [|b before].
           ++ rewrite append_Empty, append_String in Heq. congruence.
           ++ rewrite append_String in Heq. injection Heq as <- Heq.
              simpl in Hnot.
              assert (Hc : Some (b', a') = Some (before, after)).
              { apply IH. split; [exact Heq | tauto]. }
              congruence.
      * split; [discriminate|]. intros [Heq Hnot].
        destruct before as [|b before].
        -- rewrite append_Empty, append_String in Heq. congruence.
        -- rewrite append_String in Heq. injection Heq as <- Heq.
           simpl in Hnot.
           assert (Hc : None = Some (before, after)).
           { apply IH. split; [exact Heq | tauto]. }
           discriminate.
Qed.

Lemma IsNetworkModeContainer_cut c :
  IsNetworkModeContainer c = true <->
  exists after, cut_colon (ContainerNetworkMode c) = Some ("container", after).
Proof.
  unfold IsNetworkModeContainer, SplitN_colon_2.
  destruct (cut_colon (ContainerNetworkMode c)) as [[before after]|]; simpl.
  - destruct (String.eqb_spec before "container") as [->|Hne].
    + split; eauto.
    + split; [discriminate|]. intros [a [= ? ?]]. congruence.
  - split; [discriminate|]. intros [a Ha]. discriminate.
Qed.

(** C10: [IsNetworkModeContainer] holds exactly when the mode has a colon and
    the text before its first colon is [container], that is, when the mode
    starts with [container:]. The mode [container:] is container mode and not
    user-defined; the mode [container] is user-defined. *)
Theorem IsNetworkModeContainer_first_colon :
  (forall c,
      (IsNetworkModeContainer c = true <->
       exists before after,
         ContainerNetworkMode c = before ++ ":" ++ after
         /\ ~ In ":"%char (list_ascii_of_string before)
         /\ before = "container")
      /\ (IsNetworkModeContainer c = true <->
          exists id, ContainerNetworkMode c = "container:" ++ id))
  /\ IsNetworkModeContainer (config_with_network "container:") = true
  /\ IsNetworkUserDefined (config_with_network "container:") = false
  /\ IsNetworkModeContainer (config_with_network "container") = false
  /\ IsNetworkUserDefined (config_with_network "container") = true.
Proof.
  split; [|repeat split; reflexivity].
  intros c. rewrite IsNetworkModeContainer_cut. split; split.
  - intros [after Hcut]. apply cut_colon_Some in Hcut as [Heq Hnot].
    exists "container", after. auto.
  - intros (before & after & Heq & Hnot & ->).
    exists after. apply cut_colon_Some. auto.
  - intros [after Hcut]. apply cut_colon_Some in Hcut as [Heq _].
    exists after. exact Heq.
  - intros [id Heq]. exists id. apply cut_colon_Some. split; [exact Heq|].
    simpl. intros Hin. repeat destruct Hin as [Hin|Hin]; try discriminate.
    exact Hin.
Qed.

(** C7: of the five classifications host, none, bridge, container and
    user-defined, every network mode has exactly one; the empty mode and
    [my-net] are user-defined, and [host], [none], [bridge], [container:abc]
    are what they name. *)
Theorem network_mode_partition :
  (forall c, count_true (network_classes c) = 1%nat)
  /\ network_classes (config_with_network "") = [false; false; false; false; true]
  /\ network_classes (config_with_network "host") = [true; false; false; false; false]
  /\ network_classes (config_with_network "none") = [false; true; false; false; false]
  /\ network_classes (config_with_network "bridge") = [false; false; true; false; false]
  /\ network_classes (config_with_network "container:abc")
     = [false; false; false; true; false]
  /\ network_classes (config_with_network "my-net") = [false; false; false; false; true].
Proof.
  split; [|repeat split; reflexivity].
  intros [path inputs secrets matrix event mode].
  unfold network_classes, IsNetworkUserDefined, IsNetworkModeHost,
    IsNetworkModeNone, IsNetworkModeBridge, IsNetworkModeContainer; simpl.
  destruct (String.eqb_spec mode "host") as [->|_]; [reflexivity|].
  destruct (String.eqb_spec mode "none") as [->|_]; [reflexivity|].
  destruct (String.eqb_spec mode "bridge") as [->|_]; [reflexivity|].
  simpl.
  destruct ((1 <? length (SplitN_colon_2 mode))%nat
            && String.eqb (nth 0 (SplitN_colon_2 mode) "") "container");
    reflexivity.
Qed.

(** *** The failure aggregator *)

Section RunnerFacts.
Context `{Collaborators}.

Lemma range_Runs_failure_spec runs :
  match range_Runs_failure runs with
  | Some err => exists run, first_failure runs run /\ err = failure_of run
  | None => Forall (fun r => ~ run_failed r) runs
  end.
Proof.
  induction runs as [|run runs IH]; simpl; [constructor|].
  destruct (String.eqb_spec (Result (Run_Job run)) "failure") as [Hf|Hf].
  - exists run. split; [|reflexivity]. exists [], runs. auto.
  - destruct (range_Runs_failure runs) as [err|].
    + destruct IH as (r & (before & after & -> & Hb & Hr) & ->).
      exists r. split; [|reflexivity].
      exists (run :: before), after. auto.
    + constructor; assumption.
Qed.

Lemma range_Stages_failure_spec stages :
  match range_Stages_failure stages with
  | Some err =>
      exists run, first_failure (concat (map Runs stages)) run
                  /\ err = failure_of run
  | None => Forall (fun r => ~ run_failed r) (concat (map Runs stages))
  end.
Proof.
  induction stages as [|stage stages IH]; simpl; [constructor|].
  pose proof (range_Runs_failure_spec (Runs stage)) as Hs.
  destruct (range_Runs_failure (Runs stage)) as [err|].
  - destruct Hs as (r & (before & after & Heq & Hb & Hr) & ->).
    exists r. split; [|reflexivity].
    exists before, (after ++ concat (map Runs stages))%list.
    rewrite Heq, <- app_assoc. auto.
  - destruct (range_Stages_failure stages) as [err|].
    + destruct IH as (r & (before & after & Heq & Hb & Hr) & ->).
      exists r. split; [|reflexivity].
      exists (Runs stage ++ before)%list, after.
      rewrite Heq, <- app_assoc. split; [reflexivity|].
      split; [apply Forall_app; auto | assumption].
    + apply Forall_app; auto.
Qed.

(** C1: [handleFailure] returns an error exactly when some run of the plan
    has the result [failure], and the error it returns names the first such
    run in plan order (stages in order, the runs of a stage in order). *)
Theorem handleFailure_first_failing_run (plan : Plan) :
  (is_Some (handleFailure plan) <->
   exists run, run ∈ plan_runs plan /\ Result (Run_Job run) = "failure")
  /\ (forall err,
         handleFailure plan = Some err ->
         exists before run after,
           plan_runs plan = (before ++ run :: after)%list
           /\ Forall (fun r => Result (Run_Job r) <> "failure") before
           /\ Result (Run_Job run) = "failure"
           /\ err = "Job '" ++ Run_String run ++ "' failed").
Proof.
  unfold handleFailure, plan_runs.
  pose proof (range_Stages_failure_spec (Stages plan)) as Hs.
  destruct (range_Stages_failure (Stages plan)) as [e|]; split.
  - split; [|eauto]. intros _.
    destruct Hs as (r & (before & after & Heq & Hb & Hr) & _).
    exists r. split; [|exact Hr]. rewrite Heq.
    apply elem_of_app. right. left.
  - intros err [= <-].
    destruct Hs as (r & (before & after & Heq & Hb & Hr) & ->).
    exists before, r, after. auto.
  - split; [intros [x Hx]; discriminate|].
    intros (r & Hin & Hr). exfalso.
    rewrite Forall_forall in Hs. exact (Hs r Hin Hr).
  - intros err Herr. discriminate.
Qed.

End RunnerFacts.

Lemma handleFailure_first_failing_run_witness :
  let plan :=
    mkPlan [mkStage [sample_run "lint" "success" None;
                     sample_run "build" "failure" None];
            mkStage [sample_run "test" "failure" None]] in
  @handleFailure sample_collaborators plan = Some "Job 'build' failed"
  /\ exists before run after,
       plan_runs plan = (before ++ run :: after)%list
       /\ Forall (fun r => Result (Run_Job r) <> "failure") before
       /\ Result (Run_Job run) = "failure"
       /\ "Job 'build' failed"
          = "Job '" ++ @Run_String sample_collaborators run ++ "' failed".
Proof.
  intros plan. split; [reflexivity|].
  apply (proj2 (@handleFailure_first_failing_run sample_collaborators plan)).
  reflexivity.
Defined.

(** *** Construction of the runner *)

Section ConfigureFacts.
Context `{Collaborators}.

Lemma sorted_entries_singleton {A : Type} (k : string) (v : A) :
  sorted_entries ({[ k := v ]} : gmap string A) = [(k, v)].
Proof. unfold sorted_entries. rewrite map_to_list_singleton. reflexivity. Qed.

Lemma append_assoc_string (s t u : string) : (s ++ t) ++ u = s ++ t ++ u.
Proof.
  induction s as [|a s IH]; [reflexivity|].
  rewrite !append_String, IH. reflexivity.
Qed.

Lemma json_Marshal_inputs (inputs : gmap string string) :
  json_Marshal {[ "inputs" := inputs ]}
  = Ok ("{" ++ json_string "inputs" ++ ":"
            ++ marshal_object json_string inputs ++ "}").
Proof.
  unfold json_Marshal. f_equal.
  unfold marshal_object at 1. rewrite sorted_entries_singleton. simpl.
  rewrite !append_assoc_string. reflexivity.
Qed.

(** C5: the event of a new runner is the inline [EventJSON] when that is not
    empty, whatever [EventPath] is; otherwise the contents of the file at
    [EventPath] when that is not empty, and no runner but the error of the
    read when the file cannot be read; otherwise the object with the one
    member [inputs] holding [Inputs] when [Inputs] is not empty; otherwise
    the empty object. *)
Theorem configure_event_materialization (c : Config) :
  (EventJSON c <> "" -> New c = Ok (mkRunner c (EventJSON c)))
  /\ (EventJSON c = "" -> EventPath c <> "" ->
      forall contents, ReadFile (EventPath c) = Ok contents ->
                       New c = Ok (mkRunner c contents))
  /\ (EventJSON c = "" -> EventPath c <> "" ->
      forall err, ReadFile (EventPath c) = Err err -> New c = Err err)
  /\ (EventJSON c = "" -> EventPath c = "" -> Inputs c <> ∅ ->
      New c = Ok (mkRunner c ("{" ++ json_string "inputs" ++ ":"
                                  ++ marshal_object json_string (Inputs c)
                                  ++ "}")))
  /\ (EventJSON c = "" -> EventPath c = "" -> Inputs c = ∅ ->
      New c = Ok (mkRunner c "{}")).
Proof.
  unfold New, configure; cbn [config]. rewrite json_Marshal_inputs.
  repeat split.
  - intros Hj. apply String.eqb_neq in Hj. rewrite Hj. reflexivity.
  - intros -> Hp contents Hread. apply String.eqb_neq in Hp.
    rewrite Hp, Hread. reflexivity.
  - intros -> Hp err Hread. apply String.eqb_neq in Hp.
    rewrite Hp, Hread. reflexivity.
  - intros -> -> Hin.
    apply map_size_non_empty_iff in Hin.
    destruct (Nat.eqb_spec (size (Inputs c)) 0) as [Hz|_]; [contradiction|].
    reflexivity.
  - intros -> -> ->. reflexivity.
Qed.

End ConfigureFacts.

Lemma configure_event_materialization_witness :
  @New sample_collaborators
       (config_with_event ("{" ++ quote_plain "a" ++ ":1}") "/tmp/x.json" ∅)
  = Ok (mkRunner
          (config_with_event ("{" ++ quote_plain "a" ++ ":1}") "/tmp/x.json" ∅)
          ("{" ++ quote_plain "a" ++ ":1}"))
  /\ @New sample_collaborators (config_with_event "" "/tmp/x.json" ∅)
     = Ok (mkRunner (config_with_event "" "/tmp/x.json" ∅)
                    ("{" ++ quote_plain "b" ++ ":2}"))
  /\ @New sample_collaborators (config_with_event "" "/tmp/none.json" ∅)
     = Err "open: no such file or directory"
  /\ @New sample_collaborators (config_with_event "" "" {[ "x" := "1" ]})
     = Ok (mkRunner (config_with_event "" "" {[ "x" := "1" ]})
                    ("{" ++ quote_plain "inputs" ++ ":{" ++ quote_plain "x"
                         ++ ":" ++ quote_plain "1" ++ "}}"))
  /\ @New sample_collaborators (config_with_event "" "" ∅)
     = Ok (mkRunner (config_with_event "" "" ∅) "{}").
Proof.
  split; [|split; [|split; [|split]]].
  - apply (proj1 (@configure_event_materialization
                    sample_collaborators
                    (config_with_event ("{" ++ quote_plain "a" ++ ":1}")
                                       "/tmp/x.json" ∅))).
    vm_compute. discriminate.
  - apply (proj1 (proj2 (@configure_event_materialization
                           sample_collaborators
                           (config_with_event "" "/tmp/x.json" ∅))));
      [reflexivity | vm_compute; discriminate | reflexivity].
  - apply (proj1 (proj2 (proj2 (@configure_event_materialization
                                  sample_collaborators
                                  (config_with_event "" "/tmp/none.json" ∅)))));
      [reflexivity | vm_compute; discriminate | reflexivity].
  - etransitivity.
    + apply (proj1 (proj2 (proj2 (proj2
               (@configure_event_materialization sample_collaborators
                  (config_with_event "" "" {[ "x" := "1" ]}))))));
        [reflexivity | reflexivity | vm_compute; discriminate].
    + vm_compute. reflexivity.
  - apply (proj2 (proj2 (proj2 (proj2
             (@configure_event_materialization sample_collaborators
                (config_with_event "" "" ∅))))));
      reflexivity.
Defined.

(** *** The plan executor *)

Lemma fold_right_max_start (a start : Z) (l : list Z) :
  fold_right Z.max (Z.max start a) l = Z.max a (fold_right Z.max start l).
Proof. induction l as [|x l IH]; simpl; lia. Qed.

Lemma fold_right_max_app (start : Z) (l1 l2 : list Z) :
  fold_right Z.max start (l1 ++ l2)%list
  = fold_right Z.max (fold_right Z.max start l1) l2.
Proof.
  rewrite fold_right_app.
  induction l1 as [|x l1 IH]; simpl; [reflexivity|].
  rewrite IH, (Z.max_comm x (fold_right Z.max start l1)).
  rewrite fold_right_max_start. reflexivity.
Qed.

Lemma fold_right_max_ge (start : Z) (l : list Z) :
  (start <= fold_right Z.max start l)%Z
  /\ Forall (fun x => (x <= fold_right Z.max start l)%Z) l.
Proof.
  induction l as [|x l [IH1 IH2]]; simpl; [split; [lia | constructor]|].
  split; [lia|]. constructor; [lia|].
  eapply Forall_impl; [exact IH2|]. simpl. intros; lia.
Qed.

Section PlanExecutorFacts.
Context `{Collaborators}.

Lemma range_matrixes_fold runner run n (l : list (nat * gmap string Value))
    (W : Z) (E : list JobExecutor) :
  exists newE,
    fold_left (range_matrixes runner run n) l (W, E)
    = (fold_right Z.max W (map executor_name_len newE), (E ++ newE)%list)
    /\ length newE = length l
    /\ Forall pads_its_name newE.
Proof.
  revert W E. induction l as [|[i matrix] l IH]; intros W E.
  - exists []. simpl. rewrite app_nil_r. auto.
  - cbn [fold_left range_matrixes].
    match goal with
    | |- context [fold_left _ l (?w, (E ++ [?e])%list)] =>
        destruct (IH w (E ++ [e])%list) as (newE & Hfold & Hlen & Hpad);
        exists (e :: newE)
    end.
    rewrite Hfold, <- app_assoc. simpl. split; [|split].
    + f_equal. unfold executor_name_len at 2. simpl.
      match goal with
      | |- context [Z.ltb W ?x] =>
          replace (if Z.ltb W x then x else W) with (Z.max W x)
            by (destruct (Z.ltb_spec W x); lia)
      end.
      apply fold_right_max_start.
    + lia.
    + constructor; [|exact Hpad]. intros width. simpl. auto.
Qed.

Lemma length_indexed {A : Type} (l : list A) : length (indexed l) = length l.
Proof. unfold indexed. rewrite length_combine, length_seq. lia. Qed.

Lemma range_Runs_spec runner run (W : Z) (pipeline : list ParallelExecutor) :
  exists p,
    range_Runs runner (W, pipeline) run
    = (fold_right Z.max W (map executor_name_len (executors p)),
       (pipeline ++ [p])%list)
    /\ parallel p = maxParallel_of (fst (filtered_matrixes runner run))
                                   (snd (filtered_matrixes runner run))
    /\ length (executors p) = length (snd (filtered_matrixes runner run))
    /\ Forall pads_its_name (executors p).
Proof.
  unfold range_Runs.
  destruct (filtered_matrixes runner run) as [job matrixes]. simpl.
  destruct (range_matrixes_fold runner run (length matrixes)
              (indexed matrixes) W []) as (newE & Hfold & Hlen & Hpad).
  rewrite Hfold. simpl.
  exists (mkParallel (maxParallel_of job matrixes) newE). simpl.
  rewrite length_indexed in Hlen. auto.
Qed.

Lemma range_Runs_fold runner (runs : list Run) (W : Z)
    (pipeline : list ParallelExecutor) :
  exists newP,
    fold_left (range_Runs runner) runs (W, pipeline)
    = (fold_right Z.max W
         (map executor_name_len (concat (map executors newP))),
       (pipeline ++ newP)%list)
    /\ Forall (fun p => Forall pads_its_name (executors p)) newP.
Proof.
  revert W pipeline. induction runs as [|run runs IH]; intros W pipeline.
  - exists []. simpl. rewrite app_nil_r. auto.
  - cbn [fold_left].
    destruct (range_Runs_spec runner run W pipeline)
      as (p & -> & _ & _ & Hpad).
    destruct (IH (fold_right Z.max W (map executor_name_len (executors p)))
                 (pipeline ++ [p])%list) as (newP & -> & HpadP).
    exists (p :: newP). rewrite <- app_assoc. simpl.
    rewrite map_app, fold_right_max_app. auto.
Qed.

Lemma max_name_len_executors (start width : Z) (es : list JobExecutor) :
  Forall pads_its_name es ->
  max_name_len start (map (fun e : JobExecutor => e width) es)
  = fold_right Z.max start (map executor_name_len es).
Proof.
  unfold max_name_len. induction 1 as [|e es He _ IH]; simpl; [reflexivity|].
  rewrite IH. unfold executor_name_len at 2.
  rewrite (proj1 (He width)). reflexivity.
Qed.

Lemma run_pipeline_launches (width : Z) (pipeline : list ParallelExecutor) :
  concat (map (run_ParallelExecutor width) pipeline)
  = map (fun e : JobExecutor => e width) (concat (map executors pipeline)).
Proof.
  induction pipeline as [|p pipeline IH]; simpl; [reflexivity|].
  rewrite map_app, IH. reflexivity.
Qed.

Lemma stage_executor_spec runner stage (W : Z) :
  let '(W', launches) := stage_executor runner stage W in
  W' = max_name_len W launches
  /\ forall l, l ∈ launches ->
       launch_jobName l
       = Sprintf_left_justified W' (RunContext_String (launch_rc l)).
Proof.
  unfold stage_executor.
  destruct (range_Runs_fold runner (Runs stage) W []) as (newP & -> & Hpad).
  simpl. set (W' := fold_right Z.max W _).
  assert (Hes : Forall pads_its_name (concat (map executors newP))).
  { clear W'. induction Hpad; simpl; [constructor|].
    apply Forall_app; auto. }
  rewrite run_pipeline_launches. split.
  - symmetry. apply max_name_len_executors. exact Hes.
  - intros l Hin. apply list_elem_of_In, in_map_iff in Hin as (e & <- & Hin).
    rewrite Forall_forall in Hes. apply list_elem_of_In in Hin.
    apply (Hes e Hin W').
Qed.

Lemma max_name_len_app (start : Z) (l1 l2 : list JobLaunch) :
  max_name_len start (l1 ++ l2)%list
  = max_name_len (max_name_len start l1) l2.
Proof. unfold max_name_len. rewrite map_app. apply fold_right_max_app. Qed.

Lemma max_name_len_ge (start : Z) (launches : list JobLaunch) (l : JobLaunch) :
  l ∈ launches ->
  (Z.of_nat (String.length (RunContext_String (launch_rc l)))
   <= max_name_len start launches)%Z.
Proof.
  intros Hin. unfold max_name_len.
  destruct (fold_right_max_ge start
              (map (fun l => Z.of_nat (String.length
                                         (RunContext_String (launch_rc l))))
                   launches)) as [_ Hall].
  rewrite Forall_forall in Hall. apply Hall.
  apply list_elem_of_In, in_map_iff. exists l.
  split; [reflexivity | apply list_elem_of_In; exact Hin].
Qed.

Lemma run_stagePipeline_spec runner (stages : list Stage) (W : Z) (k : nat)
    (launches : list JobLaunch) :
  run_stagePipeline runner stages W !! k = Some launches ->
  forall l, l ∈ launches ->
    launch_jobName l
    = Sprintf_left_justified
        (max_name_len W (concat (take (S k) (run_stagePipeline runner stages W))))
        (RunContext_String (launch_rc l)).
Proof.
  revert W k. induction stages as [|stage stages IH]; intros W k; simpl.
  - intros Hk. discriminate.
  - pose proof (stage_executor_spec runner stage W) as Hstage.
    destruct (stage_executor runner stage W) as [W' first].
    destruct Hstage as [HW' Hfirst].
    destruct k as [|k]; simpl.
    + intros [= <-] l Hin. rewrite app_nil_r, <- HW'.
      apply Hfirst. exact Hin.
    + intros Hk l Hin. rewrite max_name_len_app, <- HW'.
      apply (IH W' k Hk l Hin).
Qed.



(** C8 (as amended): every job launched by the stage of index [k] gets as log
    prefix the formatted name of its run context, left-justified and padded
    with spaces to the greatest length of the formatted names of the run
    contexts built in the stages up to and including [k]: the width is fixed
    once the run contexts of the job's own stage are built, before the jobs
    of that stage run, and the names of later stages do not count. *)
Theorem job_names_padded_to_running_maximum (runner : runnerImpl)
    (plan : Plan) (k : nat) (launches : list JobLaunch) :
  NewPlanExecutor_launches runner plan !! k = Some launches ->
  forall l, l ∈ launches ->
    let width :=
      max_name_len 0
        (concat (take (S k) (NewPlanExecutor_launches runner plan))) in
    launch_jobName l
    = Sprintf_left_justified width (RunContext_String (launch_rc l))
    /\ (Z.of_nat (String.length (RunContext_String (launch_rc l)))
        <= width)%Z.
Proof.
  intros Hk l Hin width. split.
  - apply (run_stagePipeline_spec runner (Stages plan) 0 k launches Hk l Hin).
  - apply max_name_len_ge. apply list_elem_of_In, in_concat.
    exists launches. split; [|apply list_elem_of_In; exact Hin].
    apply list_elem_of_In, list_elem_of_lookup. exists k.
    rewrite lookup_take_lt by lia. exact Hk.
Qed.

End PlanExecutorFacts.



Lemma job_names_padded_to_running_maximum_witness :
  exists launches,
    @NewPlanExecutor_launches sample_collaborators sample_runner
                              plan_short_then_long !! 1%nat
    = Some launches
    /\ forall l, l ∈ launches ->
         launch_jobName l
         = @Sprintf_left_justified sample_collaborators 11
             (@RunContext_String sample_collaborators (launch_rc l)).
Proof.
  eexists. split; [vm_compute; reflexivity|].
  intros l Hin.
  apply (@job_names_padded_to_running_maximum sample_collaborators
           sample_runner plan_short_then_long 1 _ eq_refl l Hin).
Defined.

(** C8, counterexample: in a plan of two stages whose second stage has the
    longer name, the job of the first stage is launched with the width of
    its own name, not with the greatest width of the plan. *)
Lemma first_stage_not_padded_to_plan_maximum :
  let launches :=
    @NewPlanExecutor_launches sample_collaborators sample_runner
                              plan_short_then_long in
  map (map launch_jobName) launches = [["a"]; ["longer-name"]]
  /\ map (map (fun l => @RunContext_String sample_collaborators (launch_rc l)))
         launches
     = [["a"]; ["longer-name"]]
  /\ @max_name_len sample_collaborators 0 (concat launches) = 11%Z
  /\ @Sprintf_left_justified sample_collaborators 11 "a" <> "a".
Proof. vm_compute. repeat split; discriminate. Qed.

(** * Further properties *)

(** ** The matrix filter *)

Lemma bool_eq_true_iff (a b : bool) : (a = true <-> b = true) -> a = b.
Proof. destruct a, b; intros [H1 H2]; auto; symmetry; auto. Qed.

(** X1: the flag that decides whether a point is kept does not depend on the
    order in which the entries of the point are visited. *)
Theorem keep_flag_any_iteration_order
    (F : gmap string (gmap string bool)) (point : gmap string Value)
    (visited : list (string * Value)) :
  visited ≡ₚ map_to_list point ->
  fold_left (range_original F) visited true = keep_flag F point.
Proof.
  intros Hperm. unfold keep_flag. apply bool_eq_true_iff.
  rewrite !range_original_true. rewrite Hperm. reflexivity.
Qed.

Lemma keep_flag_any_iteration_order_witness :
  fold_left (range_original filter_node_14)
            [("os", VString "a"); ("node", VInt 12)] true
  = keep_flag filter_node_14 {[ "node" := VInt 12; "os" := VString "a" ]}
  /\ fold_left (range_original filter_node_14)
               [("node", VInt 12); ("os", VString "a")] true
     = keep_flag filter_node_14 {[ "node" := VInt 12; "os" := VString "a" ]}.
Proof.
  split.
  - apply (keep_flag_any_iteration_order filter_node_14
             {[ "node" := VInt 12; "os" := VString "a" ]}
             [("os", VString "a"); ("node", VInt 12)]).
    vm_compute. reflexivity.
  - apply (keep_flag_any_iteration_order filter_node_14
             {[ "node" := VInt 12; "os" := VString "a" ]}
             [("node", VInt 12); ("os", VString "a")]).
    vm_compute. apply perm_swap.
Defined.

Lemma keep_flag_same_allowed_keys F G point :
  same_allowed_keys F G -> keep_flag F point = keep_flag G point.
Proof.
  assert (Hdir : forall F G, same_allowed_keys F G ->
                   shared_dimensions_allowed F point ->
                   shared_dimensions_allowed G point).
  { clear F G. intros F G Hsame HF dim val allowedG Hp HG.
    specialize (Hsame dim). rewrite HG in Hsame.
    destruct (F !! dim) as [allowedF|] eqn:EF; [|discriminate].
    simpl in Hsame. injection Hsame as Hdom.
    apply elem_of_dom. rewrite <- Hdom. apply elem_of_dom.
    eapply HF; eassumption. }
  intros Hsame. apply bool_eq_true_iff. rewrite !keep_flag_spec. split.
  - apply Hdir. exact Hsame.
  - apply Hdir. intros dim. symmetry. apply Hsame.
Qed.

(** X2: only the keys of the filter count: two filters with the same
    dimensions and the same allowed texts keep the same points, whatever
    booleans the texts are mapped to (a text mapped to false is allowed). *)
Theorem selectMatrixes_ignores_filter_booleans
    (M : list (gmap string Value)) (F G : gmap string (gmap string bool)) :
  same_allowed_keys F G -> selectMatrixes M F = selectMatrixes M G.
Proof.
  intros Hsame. rewrite !selectMatrixes_filter.
  induction M as [|p M IH]; simpl; [reflexivity|].
  rewrite (keep_flag_same_allowed_keys F G p Hsame), IH. reflexivity.
Qed.

Lemma selectMatrixes_ignores_filter_booleans_witness :
  selectMatrixes [matrix_os "a"; matrix_os "b"] {[ "os" := {[ "a" := true ]} ]}
  = selectMatrixes [matrix_os "a"; matrix_os "b"]
                   {[ "os" := {[ "a" := false ]} ]}
  /\ selectMatrixes [matrix_os "a"; matrix_os "b"]
                    {[ "os" := {[ "a" := false ]} ]}
     = [matrix_os "a"].
Proof.
  split; [|vm_compute; reflexivity].
  apply (selectMatrixes_ignores_filter_booleans
           [matrix_os "a"; matrix_os "b"]
           {[ "os" := {[ "a" := true ]} ]} {[ "os" := {[ "a" := false ]} ]}).
  intros dim. destruct (decide (dim = "os")) as [->|Hne].
  - rewrite !lookup_singleton_eq. simpl. rewrite !dom_singleton_L.
    reflexivity.
  - rewrite !lookup_singleton_ne by congruence. reflexivity.
Defined.

Lemma filter_filter_comm {A : Type} (f g : A -> bool) (l : list A) :
  List.filter f (List.filter g l) = List.filter g (List.filter f l).
Proof.
  induction l as [|x l IH]; simpl; [reflexivity|].
  destruct (f x) eqn:Ef, (g x) eqn:Eg; simpl; rewrite ?Ef, ?Eg, IH; reflexivity.
Qed.

Lemma filter_idem {A : Type} (f : A -> bool) (l : list A) :
  List.filter f (List.filter f l) = List.filter f l.
Proof.
  induction l as [|x l IH]; simpl; [reflexivity|].
  destruct (f x) eqn:Ef; simpl; rewrite ?Ef, IH; reflexivity.
Qed.

(** X3: filtering twice by the same filter changes nothing more, and two
    filters can be applied in either order. *)
Theorem selectMatrixes_idempotent_commutes
    (M : list (gmap string Value)) (F G : gmap string (gmap string bool)) :
  selectMatrixes (selectMatrixes M F) F = selectMatrixes M F
  /\ selectMatrixes (selectMatrixes M F) G
     = selectMatrixes (selectMatrixes M G) F.
Proof.
  rewrite !selectMatrixes_filter. split.
  - apply filter_idem.
  - apply filter_filter_comm.
Qed.

(** X4: the filter works point by point: the result on a concatenation is
    the concatenation of the results, and it is never longer than its
    input. *)
Theorem selectMatrixes_app_length
    (M1 M2 : list (gmap string Value)) (F : gmap string (gmap string bool)) :
  selectMatrixes (M1 ++ M2) F
  = (selectMatrixes M1 F ++ selectMatrixes M2 F)%list
  /\ (length (selectMatrixes M1 F) <= length M1)%nat.
Proof.
  rewrite !selectMatrixes_filter. split.
  - apply Stdlib.Lists.List.filter_app.
  - apply Stdlib.Lists.List.filter_length_le.
Qed.

Lemma keep_flag_same_formatted F p q :
  same_formatted p q -> keep_flag F p = keep_flag F q.
Proof.
  assert (Hdir : forall p q, same_formatted p q ->
                   shared_dimensions_allowed F p ->
                   shared_dimensions_allowed F q).
  { clear p q. intros p q Hsame Hp dim val allowed Hq HF.
    assert (Hl : (Sprintf_v <$> p) !! dim = Some (Sprintf_v val)).
    { rewrite Hsame, lookup_fmap, Hq. reflexivity. }
    rewrite lookup_fmap in Hl.
    destruct (p !! dim) as [val'|] eqn:Ep; [|discriminate].
    simpl in Hl. injection Hl as <-. eapply Hp; eassumption. }
  intros Hsame. apply bool_eq_true_iff. rewrite !keep_flag_spec. split.
  - apply Hdir. exact Hsame.
  - apply Hdir. symmetry. exact Hsame.
Qed.

(** X5: the filter sees the values of a point only through their formatted
    text: of two lists of points that are alike once formatted (an integer
    14 and a string 14, say), it keeps the points at the same positions. *)
Theorem selectMatrixes_sees_formatted_values
    (M M' : list (gmap string Value)) (F : gmap string (gmap string bool)) :
  Forall2 same_formatted M M' ->
  Forall2 same_formatted (selectMatrixes M F) (selectMatrixes M' F).
Proof.
  intros Hall. rewrite !selectMatrixes_filter.
  induction Hall as [|p q M M' Hpq _ IH]; simpl; [constructor|].
  rewrite (keep_flag_same_formatted F p q Hpq).
  destruct (keep_flag F q); [constructor; assumption | exact IH].
Qed.

Lemma selectMatrixes_sees_formatted_values_witness :
  Forall2 same_formatted
    (selectMatrixes [point_v_14_int] {[ "v" := {[ "14" := true ]} ]})
    (selectMatrixes [point_v_14_string] {[ "v" := {[ "14" := true ]} ]})
  /\ selectMatrixes [point_v_14_int] {[ "v" := {[ "14" := true ]} ]}
     = [point_v_14_int].
Proof.
  split; [|vm_compute; reflexivity].
  apply (selectMatrixes_sees_formatted_values
           [point_v_14_int] [point_v_14_string]).
  constructor; [|constructor].
  unfold same_formatted, point_v_14_int, point_v_14_string.
  rewrite !map_fmap_singleton. reflexivity.
Defined.

(** ** Token, construction of the runner, failure aggregator *)

(** X6: the token is always one of the two secrets [GITEA_TOKEN] and
    [GITHUB_TOKEN], and it is empty exactly when both are empty or
    missing. *)
Theorem GetToken_empty_iff (c : Config) :
  (GetToken c = "" <->
   map_index (Secrets c) "GITEA_TOKEN" = ""
   /\ map_index (Secrets c) "GITHUB_TOKEN" = "")
  /\ (GetToken c = map_index (Secrets c) "GITEA_TOKEN"
      \/ GetToken c = map_index (Secrets c) "GITHUB_TOKEN").
Proof.
  unfold GetToken.
  destruct (String.eqb_spec (map_index (Secrets c) "GITEA_TOKEN") "")
    as [Heq|Hne]; simpl.
  - rewrite Heq. split; [|right; reflexivity]. tauto.
  - split; [|left; reflexivity]. tauto.
Qed.

Section ConstructionFacts.
Context `{Collaborators}.

Lemma marshal_object_not_empty {A : Type} (f : A -> string) (m : gmap string A) :
  marshal_object f m <> "".
Proof. unfold marshal_object. rewrite append_String. discriminate. Qed.

(** X7: the construction of a runner fails in one case only: no inline
    event is given, an event path is given, and the file cannot be read; the
    error is then the error of the read. *)
Theorem New_fails_iff_event_file_unreadable (c : Config) (err : error) :
  New c = Err err <->
  EventJSON c = "" /\ EventPath c <> "" /\ ReadFile (EventPath c) = Err err.
Proof.
  unfold New, configure, json_Marshal; cbn [config].
  destruct (String.eqb_spec (EventJSON c) "") as [Hj|Hj]; simpl.
  - destruct (String.eqb_spec (EventPath c) "") as [Hp|Hp]; simpl.
    + destruct (size (Inputs c) =? 0)%nat; simpl;
        (split; [discriminate | intros (_ & Hne & _); contradiction]).
    + destruct (ReadFile (EventPath c)) as [contents|e].
      * split; [discriminate | intros (_ & _ & Hr); discriminate].
      * split; [intros [= ->]; auto | intros (_ & _ & [= ->]); reflexivity].
  - split; [discriminate | intros (Hempty & _); contradiction].
Qed.

(** X8: a runner that is built holds the configuration it was built from,
    and its event is not the empty text, unless it was read from an event
    file that is empty. *)
Theorem New_keeps_config_event_not_empty (c : Config) (runner : runnerImpl) :
  New c = Ok runner ->
  config runner = c
  /\ (eventJSON runner = "" ->
      EventJSON c = "" /\ EventPath c <> ""
      /\ ReadFile (EventPath c) = Ok "").
Proof.
  unfold New, configure, json_Marshal; cbn [config].
  destruct (String.eqb_spec (EventJSON c) "") as [Hj|Hj]; simpl.
  - destruct (String.eqb_spec (EventPath c) "") as [Hp|Hp]; simpl.
    + destruct (size (Inputs c) =? 0)%nat; simpl; intros [= <-]; simpl;
        (split; [reflexivity|]).
      * discriminate.
      * intros Hempty. exfalso.
        exact (marshal_object_not_empty _ _ Hempty).
    + destruct (ReadFile (EventPath c)) as [contents|e]; [|discriminate].
      intros [= <-]; simpl. split; [reflexivity|]. intros ->. auto.
  - intros [= <-]; simpl. split; [reflexivity|]. intros Hempty. contradiction.
Qed.

Lemma handleFailure_flat (plan : Plan) :
  handleFailure plan = range_Runs_failure (plan_runs plan).
Proof.
  unfold handleFailure, plan_runs.
  induction (Stages plan) as [|stage stages IH]; simpl; [reflexivity|].
  rewrite IH. generalize (concat (map Runs stages)). intros rest.
  induction (Runs stage) as [|run runs IHr]; simpl; [reflexivity|].
  destruct (String.eqb (Result (Run_Job run)) "failure"); [reflexivity|].
  exact IHr.
Qed.

(** X9: the failure aggregator reads the plan only as the sequence of its
    runs: two plans with the same runs in the same order, however they are
    divided into stages, give the same result. *)
Theorem handleFailure_ignores_stage_boundaries (plan plan' : Plan) :
  plan_runs plan = plan_runs plan' -> handleFailure plan = handleFailure plan'.
Proof. intros Heq. rewrite !handleFailure_flat, Heq. reflexivity. Qed.

(** X10: on a plan made of two sequences of stages, the failure aggregator
    returns the failure of the first sequence when it has one, and otherwise
    what it returns on the second. *)
Theorem handleFailure_app (stages1 stages2 : list Stage) :
  handleFailure (mkPlan (stages1 ++ stages2))
  = match handleFailure (mkPlan stages1) with
    | Some err => Some err
    | None => handleFailure (mkPlan stages2)
    end.
Proof.
  unfold handleFailure; simpl.
  induction stages1 as [|stage stages1 IH]; simpl; [reflexivity|].
  destruct (range_Runs_failure (Runs stage)); [reflexivity | exact IH].
Qed.

End ConstructionFacts.

Lemma New_keeps_config_event_not_empty_witness :
  config (mkRunner (config_with_event "" "" {[ "x" := "1" ]})
                   ("{" ++ quote_plain "inputs" ++ ":{" ++ quote_plain "x"
                        ++ ":" ++ quote_plain "1" ++ "}}"))
  = config_with_event "" "" {[ "x" := "1" ]}.
Proof.
  apply (@New_keeps_config_event_not_empty sample_collaborators
           (config_with_event "" "" {[ "x" := "1" ]})).
  vm_compute. reflexivity.
Defined.

Lemma handleFailure_ignores_stage_boundaries_witness :
  @handleFailure sample_collaborators
    (mkPlan [mkStage [sample_run "lint" "success" None;
                      sample_run "build" "failure" None];
             mkStage [sample_run "test" "failure" None]])
  = @handleFailure sample_collaborators
      (mkPlan [mkStage [sample_run "lint" "success" None];
               mkStage [sample_run "build" "failure" None;
                        sample_run "test" "failure" None]]).
Proof.
  apply (@handleFailure_ignores_stage_boundaries sample_collaborators).
  reflexivity.
Defined.

(** ** The plan executor *)

Lemma Sprintf_d_inj (a b : Z) : Sprintf_d a = Sprintf_d b -> a = b.
Proof.
  unfold Sprintf_d. intros Heq. apply DecimalZ.to_int_inj.
  assert (Hn : forall z, Z.to_int z <> Decimal.Pos Decimal.Nil
                         /\ Z.to_int z <> Decimal.Neg Decimal.Nil).
  { intros [|p|p]; simpl; split; try discriminate;
      intros [= Hp]; exact (DecimalPos.Unsigned.to_uint_nonnil p Hp). }
  assert (Hs : Some (Z.to_int a) = Some (Z.to_int b)).
  { rewrite <- (NilZero.isi (Z.to_int a)) by apply Hn.
    rewrite <- (NilZero.isi (Z.to_int b)) by apply Hn.
    rewrite Heq. reflexivity. }
  congruence.
Qed.

Lemma append_cancel_l (s a b : string) : s ++ a = s ++ b -> a = b.
Proof.
  induction s as [|c s IH]; [rewrite !append_Empty; auto|].
  rewrite !append_String. intros [= Heq]. auto.
Qed.

Lemma length_append_string (s t : string) :
  String.length (s ++ t) = (String.length s + String.length t)%nat.
Proof.
  induction s as [|c s IH]; [reflexivity|].
  rewrite append_String. simpl. rewrite IH. reflexivity.
Qed.

Lemma length_spaces (n : nat) : String.length (spaces n) = n.
Proof. induction n as [|n IH]; simpl; congruence. Qed.

Lemma indexed_from_lookup {A : Type} (l : list A) (start i k : nat) (x : A) :
  combine (seq start (length l)) l !! i = Some (k, x) ->
  k = (start + i)%nat /\ l !! i = Some x.
Proof.
  revert start i. induction l as [|y l IH]; intros start i; simpl.
  - discriminate.
  - destruct i as [|i]; simpl.
    + intros [= <- <-]. split; [lia | reflexivity].
    + intros Hl. destruct (IH (S start) i Hl) as [-> Hx]. split; [lia | exact Hx].
Qed.

Section PlanExecutorNames.
Context `{Collaborators}.

Lemma range_matrixes_points runner run n (l : list (nat * gmap string Value))
    (W : Z) (E : list JobExecutor) :
  exists newE,
    snd (fold_left (range_matrixes runner run n) l (W, E)) = (E ++ newE)%list
    /\ Forall2 (executor_of_point runner run n) l newE.
Proof.
  revert W E. induction l as [|[i matrix] l IH]; intros W E.
  - exists []. simpl. rewrite app_nil_r. split; [reflexivity | constructor].
  - cbn [fold_left range_matrixes].
    match goal with
    | |- context [fold_left _ l (?w, (E ++ [?e])%list)] =>
        destruct (IH w (E ++ [e])%list) as (newE & Hfold & Hall);
        exists (e :: newE)
    end.
    rewrite Hfold, <- app_assoc. split; [reflexivity|].
    constructor; [|exact Hall].
    intros width. cbn [fst snd].
    destruct (1 <? n)%nat; simpl; repeat split; reflexivity.
Qed.

Lemma range_Runs_points runner run (W : Z) (pipeline : list ParallelExecutor) :
  exists p,
    snd (range_Runs runner (W, pipeline) run) = (pipeline ++ [p])%list
    /\ Forall2 (executor_of_point runner run
                  (length (snd (filtered_matrixes runner run))))
               (indexed (snd (filtered_matrixes runner run)))
               (executors p).
Proof.
  unfold range_Runs.
  destruct (filtered_matrixes runner run) as [job matrixes]. cbn [snd].
  destruct (range_matrixes_points runner run (length matrixes)
              (indexed matrixes) W []) as (newE & Hfold & Hall).
  destruct (fold_left _ (indexed matrixes) (W, [])) as [W' E'].
  simpl in Hfold. subst E'.
  exists (mkParallel (maxParallel_of job matrixes) newE). auto.
Qed.



(** X12: two matrix points of one run whose interpolated names are the same
    are launched under different names: the suffix of the index tells them
    apart. *)
Theorem matrix_points_get_distinct_names (runner : runnerImpl) (run : Run)
    (maxJobNameLen : Z) (pipeline : list ParallelExecutor)
    (p : ParallelExecutor) (i j : nat) (ei ej : JobExecutor) :
  snd (range_Runs runner (maxJobNameLen, pipeline) run)
  = (pipeline ++ [p])%list ->
  executors p !! i = Some ei ->
  executors p !! j = Some ej ->
  i <> j ->
  JobName (launch_rc (ei 0%Z)) = JobName (launch_rc (ej 0%Z)) ->
  Name (launch_rc (ei 0%Z)) <> Name (launch_rc (ej 0%Z)).
Proof.
  intros Hp Hi Hj Hne Hbase.
  destruct (range_Runs_points runner run maxJobNameLen pipeline)
    as (p' & Hp' & Hall).
  rewrite Hp in Hp'. apply app_inj_tail in Hp' as [_ <-].
  set (n := length (snd (filtered_matrixes runner run))) in *.
  assert (Hlen : length (executors p) = n).
  { apply Forall2_length in Hall. rewrite length_indexed in Hall.
    symmetry. exact Hall. }
  assert (Hn : (1 <? n)%nat = true).
  { apply Nat.ltb_lt. apply lookup_lt_Some in Hi, Hj. lia. }
  destruct (Forall2_lookup_r _ _ _ _ _ Hall Hi) as ([ki mi] & Hei & Hpi).
  destruct (Forall2_lookup_r _ _ _ _ _ Hall Hj) as ([kj mj] & Hej & Hpj).
  apply indexed_from_lookup in Hei as [-> _].
  apply indexed_from_lookup in Hej as [-> _].
  destruct (Hpi 0%Z) as (_ & _ & _ & _ & _ & _ & Hbi & Hni).
  destruct (Hpj 0%Z) as (_ & _ & _ & _ & _ & _ & Hbj & Hnj).
  cbn [fst snd] in *. rewrite Hn in Hni, Hnj.
  rewrite Hni, Hnj, <- Hbi, <- Hbj, <- Hbase. intros Heq.
  apply append_cancel_l, append_cancel_l, Sprintf_d_inj in Heq. lia.
Qed.

Lemma range_Runs_fold_points runner (runs : list Run) (W : Z)
    (pipeline : list ParallelExecutor) :
  exists newP,
    snd (fold_left (range_Runs runner) runs (W, pipeline))
    = (pipeline ++ newP)%list
    /\ Forall2
         (fun run p =>
            Forall2 (executor_of_point runner run
                       (length (snd (filtered_matrixes runner run))))
                    (indexed (snd (filtered_matrixes runner run)))
                    (executors p))
         runs newP.
Proof.
  revert W pipeline. induction runs as [|run runs IH]; intros W pipeline.
  - exists []. simpl. rewrite app_nil_r. split; [reflexivity | constructor].
  - cbn [fold_left].
    destruct (range_Runs_points runner run W pipeline) as (p & Hp & Hall).
    destruct (range_Runs runner (W, pipeline) run) as [W' pipeline'].
    simpl in Hp. subst pipeline'.
    destruct (IH W' (pipeline ++ [p])%list) as (newP & -> & HallP).
    exists (p :: newP). rewrite <- app_assoc. split; [reflexivity|].
    constructor; assumption.
Qed.

(** X13: the pipeline that a stage builds holds exactly one parallel
    executor for each run of the stage, in the order of the runs, also for a
    run without matrix points; the parallel executor of a run holds one job
    executor for each filtered point of that run, and each of them launches
    its job under the [JobID] of that run. *)
Theorem stage_pipeline_follows_runs (runner : runnerImpl) (stage : Stage)
    (maxJobNameLen : Z) :
  Forall2
    (fun run p =>
       length (executors p) = length (snd (filtered_matrixes runner run))
       /\ forall executor (width : Z),
            executor ∈ executors p ->
            launch_JobID (executor width) = JobID run)
    (Runs stage)
    (snd (fold_left (range_Runs runner) (Runs stage) (maxJobNameLen, []))).
Proof.
  destruct (range_Runs_fold_points runner (Runs stage) maxJobNameLen [])
    as (newP & -> & Hall).
  simpl. induction Hall as [|run p runs newP Hp _ IH]; constructor; [|exact IH].
  split.
  - apply Forall2_length in Hp. rewrite length_indexed in Hp.
    symmetry. exact Hp.
  - intros executor width Hin.
    apply list_elem_of_lookup in Hin as [i Hi].
    destruct (Forall2_lookup_r _ _ _ _ _ Hp Hi) as (entry & _ & Hpoint).
    apply (Hpoint width).
Qed.

(** X14: when the name of a job has as many runes as bytes (an ASCII name),
    its log prefix is exactly as long as the width of its stage: such
    prefixes of one stage all have the same length. *)
Theorem job_prefix_has_the_width_of_its_stage (runner : runnerImpl)
    (plan : Plan) (k : nat) (launches : list JobLaunch) (l : JobLaunch) :
  NewPlanExecutor_launches runner plan !! k = Some launches ->
  l ∈ launches ->
  RuneCountInString (RunContext_String (launch_rc l))
  = String.length (RunContext_String (launch_rc l)) ->
  Z.of_nat (String.length (launch_jobName l)) = stage_width runner plan k.
Proof.
  intros Hk Hin Hascii. unfold stage_width.
  rewrite (run_stagePipeline_spec runner (Stages plan) 0 k launches Hk l Hin).
  fold (NewPlanExecutor_launches runner plan).
  assert (Hge : (Z.of_nat (String.length (RunContext_String (launch_rc l)))
                 <= max_name_len 0
                      (concat (take (S k)
                                 (NewPlanExecutor_launches runner plan))))%Z).
  { apply max_name_len_ge. apply list_elem_of_In, in_concat.
    exists launches. split; [|apply list_elem_of_In; exact Hin].
    apply list_elem_of_In, list_elem_of_lookup. exists k.
    rewrite lookup_take_lt by lia. exact Hk. }
  unfold Sprintf_left_justified.
  rewrite length_append_string, length_spaces, Hascii. lia.
Qed.



End PlanExecutorNames.


Lemma matrix_points_get_distinct_names_witness :
  map (fun e : JobExecutor => Name (launch_rc (e 0%Z)))
      (concat (map executors
                 (snd (@range_Runs sample_collaborators sample_runner
                         (0%Z, []) run_build_os))))
  = ["build-1"; "build-2"; "build-3"]
  /\ "build-1" <> "build-2".
Proof.
  split; [vm_compute; reflexivity|].
  exact (@matrix_points_get_distinct_names sample_collaborators
           sample_runner run_build_os 0%Z []
           (hd (mkParallel 0 [])
               (snd (@range_Runs sample_collaborators sample_runner
                       (0%Z, []) run_build_os)))
           0 1 _ _ eq_refl eq_refl eq_refl (O_S 0) eq_refl).
Defined.

Lemma job_prefix_has_the_width_of_its_stage_witness :
  exists launches,
    @NewPlanExecutor_launches sample_collaborators sample_runner
                              plan_short_then_long !! 1%nat
    = Some launches
    /\ forall l, l ∈ launches ->
         Z.of_nat (String.length (launch_jobName l)) = 11%Z.
Proof.
  eexists. split; [vm_compute; reflexivity|].
  intros l Hin.
  apply (@job_prefix_has_the_width_of_its_stage sample_collaborators
           sample_runner plan_short_then_long 1 _ l eq_refl Hin).
  reflexivity.
Defined.

(** ** The network executors *)

Section NetworkExecutorFacts.
Context `{DockerClient}.

Lemma range_inheritDriverOpts_lookup (networkOptions : gmap string string)
    (inheritDriverOpts : list string) (options : gmap string string)
    (optKey : string) :
  range_inheritDriverOpts networkOptions inheritDriverOpts options !! optKey
  = if decide (optKey ∈ inheritDriverOpts)
    then match networkOptions !! optKey with
         | Some val => Some val
         | None => options !! optKey
         end
    else options !! optKey.
Proof.
  unfold range_inheritDriverOpts. revert options.
  induction inheritDriverOpts as [|key keys IH]; intros options;
    cbn [fold_left].
  - destruct (decide (optKey ∈ [])) as [Hin|_]; [|reflexivity].
    apply elem_of_nil in Hin. contradiction.
  - rewrite IH. destruct (decide (optKey = key)) as [->|Hne].
    + destruct (decide (key ∈ key :: keys)) as [_|Hnin];
        [|exfalso; apply Hnin; left].
      destruct (networkOptions !! key) as [val|] eqn:Hnet.
      * destruct (decide (key ∈ keys)); [reflexivity|].
        apply lookup_insert_eq.
      * destruct (decide (key ∈ keys)); reflexivity.
    + assert (Hother : forall o : gmap string string,
                match networkOptions !! key with
                | Some val => <[key := val]> o
                | None => o
                end !! optKey = o !! optKey).
      { intros o. destruct (networkOptions !! key); [|reflexivity].
        apply lookup_insert_ne. congruence. }
      rewrite Hother.
      destruct (decide (optKey ∈ keys)) as [Hin|Hnin],
               (decide (optKey ∈ key :: keys)) as [Hin'|Hnin'];
        try reflexivity.
      * exfalso. apply Hnin'. right. exact Hin.
      * exfalso. apply elem_of_cons in Hin' as [?|?]; contradiction.
Qed.

(** X16: the two revisions of the executor that creates a network, the one
    that allocates the options before it inspects the bridge network and the
    one that allocates them after, send the same requests and return the
    same error. *)
Theorem NewDockerNetworkCreateExecutor_revisions_agree (name : string)
    (inheritDriverOpts : list string) :
  NewDockerNetworkCreateExecutor_allocating_first name inheritDriverOpts
  = NewDockerNetworkCreateExecutor name inheritDriverOpts.
Proof.
  unfold NewDockerNetworkCreateExecutor_allocating_first,
    NewDockerNetworkCreateExecutor.
  destruct GetDockerClient; [reflexivity|].
  destruct (0 <? length inheritDriverOpts)%nat; [|reflexivity].
  destruct (NetworkInspect "bridge" "local"); reflexivity.
Qed.

(** X17: with a client, options to inherit and a bridge network that can be
    inspected, the executor inspects the bridge network and then asks for a
    local bridge network of the given name whose options are the options of
    the bridge network under the keys to inherit, and nothing else; it
    returns the error of that creation. *)
Theorem NewDockerNetworkCreateExecutor_inherits (name : string)
    (inheritDriverOpts : list string) (networkOptions : gmap string string) :
  GetDockerClient = None ->
  inheritDriverOpts <> [] ->
  NetworkInspect "bridge" "local" = Ok networkOptions ->
  exists options,
    NewDockerNetworkCreateExecutor name inheritDriverOpts
    = ([CallNetworkInspect "bridge" "local";
        CallNetworkCreate name (mkNetworkCreate "bridge" "local" (Some options))],
       NetworkCreate_error name
         (mkNetworkCreate "bridge" "local" (Some options)))
    /\ forall optKey val,
         options !! optKey = Some val <->
         optKey ∈ inheritDriverOpts /\ networkOptions !! optKey = Some val.
Proof.
  intros Hcli Hne Hinspect.
  exists (range_inheritDriverOpts networkOptions inheritDriverOpts ∅). split.
  - unfold NewDockerNetworkCreateExecutor. rewrite Hcli.
    destruct inheritDriverOpts; [contradiction|]. simpl.
    rewrite Hinspect. reflexivity.
  - intros optKey val. rewrite range_inheritDriverOpts_lookup.
    destruct (decide (optKey ∈ inheritDriverOpts)) as [Hin|Hnin].
    + destruct (networkOptions !! optKey) as [v|].
      * split; [intros [= ->]; auto | intros [_ [= ->]]; reflexivity].
      * rewrite lookup_empty. split; [discriminate | intros [_ ?]; discriminate].
    + rewrite lookup_empty. split; [discriminate | tauto].
Qed.

(** X18: the executor that creates a network returns no error only when it
    asked for the creation of the network of the given name and the daemon
    accepted it; when the client is missing or the bridge network cannot be
    inspected, it asks for no creation and returns that error. *)
Theorem NewDockerNetworkCreateExecutor_success_means_created (name : string)
    (inheritDriverOpts : list string) :
  (snd (NewDockerNetworkCreateExecutor name inheritDriverOpts) = None ->
   exists options,
     CallNetworkCreate name options
       ∈ fst (NewDockerNetworkCreateExecutor name inheritDriverOpts)
     /\ NetworkCreate_error name options = None)
  /\ (existsb is_create
        (fst (NewDockerNetworkCreateExecutor name inheritDriverOpts)) = false ->
      exists err,
        snd (NewDockerNetworkCreateExecutor name inheritDriverOpts) = Some err
        /\ (GetDockerClient = Some err
            \/ NetworkInspect "bridge" "local" = Err err)).
Proof.
  unfold NewDockerNetworkCreateExecutor.
  destruct GetDockerClient as [e|] eqn:Hcli; simpl.
  - split; [discriminate|]. intros _. exists e. auto.
  - destruct (0 <? length inheritDriverOpts)%nat.
    + destruct (NetworkInspect "bridge" "local") as [networkOptions|e]; simpl.
      * split; [|discriminate]. intros Hok. eexists. split; [|exact Hok].
        right. left.
      * split; [discriminate|]. intros _. exists e. auto.
    + simpl. split; [|discriminate]. intros Hok. eexists.
      split; [|exact Hok]. left.
Qed.

(** X19: the bridge network is inspected exactly when a client is obtained
    and there are options to inherit; without options to inherit the only
    request is the creation of a local bridge network with no options map. *)
Theorem NewDockerNetworkCreateExecutor_inspects_iff (name : string)
    (inheritDriverOpts : list string) :
  (existsb is_inspect
     (fst (NewDockerNetworkCreateExecutor name inheritDriverOpts)) = true <->
   GetDockerClient = None /\ inheritDriverOpts <> [])
  /\ (GetDockerClient = None ->
      NewDockerNetworkCreateExecutor name []
      = ([CallNetworkCreate name (mkNetworkCreate "bridge" "local" None)],
         NetworkCreate_error name (mkNetworkCreate "bridge" "local" None))).
Proof.
  unfold NewDockerNetworkCreateExecutor. split.
  - destruct GetDockerClient as [e|]; simpl.
    + split; [discriminate | intros [? _]; discriminate].
    + destruct inheritDriverOpts as [|key keys]; simpl.
      * split; [discriminate | intros [_ ?]; contradiction].
      * destruct (NetworkInspect "bridge" "local"); simpl;
          (split; [intros _; split; [reflexivity | discriminate] | reflexivity]).
  - intros ->. reflexivity.
Qed.

(** X20: the executor that creates a network depends on the keys to inherit
    only as a set: their order and their repetitions change nothing. *)
Theorem NewDockerNetworkCreateExecutor_keys_as_set (name : string)
    (keys1 keys2 : list string) :
  (forall optKey, optKey ∈ keys1 <-> optKey ∈ keys2) ->
  NewDockerNetworkCreateExecutor name keys1
  = NewDockerNetworkCreateExecutor name keys2.
Proof.
  intros Hsame. unfold NewDockerNetworkCreateExecutor.
  destruct GetDockerClient; [reflexivity|].
  assert (Hempty : (0 <? length keys1)%nat = (0 <? length keys2)%nat).
  { destruct keys1 as [|k1 keys1], keys2 as [|k2 keys2]; simpl; try reflexivity.
    - exfalso. apply (not_elem_of_nil k2), Hsame. left.
    - exfalso. apply (not_elem_of_nil k1), Hsame. left. }
  rewrite Hempty. destruct (0 <? length keys2)%nat; [|reflexivity].
  destruct (NetworkInspect "bridge" "local") as [networkOptions|e];
    [|reflexivity].
  assert (Hopts : range_inheritDriverOpts networkOptions keys1 ∅
                  = range_inheritDriverOpts networkOptions keys2 ∅).
  { apply map_eq. intros optKey. rewrite !range_inheritDriverOpts_lookup.
    destruct (decide (optKey ∈ keys1)) as [H1|H1],
             (decide (optKey ∈ keys2)) as [H2|H2]; try reflexivity.
    - exfalso. apply H2, Hsame, H1.
    - exfalso. apply H1, Hsame, H2. }
  simpl. rewrite Hopts. reflexivity.
Qed.

(** X21: the executors that create and remove the network of a job touch no
    other network: every request they send creates or removes the network of
    the given name, or reads the local bridge network, and every network they
    create is a local bridge network. *)
Theorem network_executors_confined (name : string)
    (inheritDriverOpts : list string) (call : ClientCall) :
  call ∈ (fst (NewDockerNetworkCreateExecutor name inheritDriverOpts)
          ++ fst (NewDockerNetworkRemoveExecutor name))%list ->
  call_confined_to name call.
Proof.
  unfold NewDockerNetworkCreateExecutor, NewDockerNetworkRemoveExecutor.
  destruct GetDockerClient; simpl.
  - intros Hin. apply elem_of_nil in Hin. contradiction.
  - destruct (0 <? length inheritDriverOpts)%nat;
      [destruct (NetworkInspect "bridge" "local")|]; simpl; intros Hin;
      repeat (apply elem_of_cons in Hin as [->|Hin]; [simpl; auto|]);
      apply elem_of_nil in Hin; contradiction.
Qed.

End NetworkExecutorFacts.

Lemma NewDockerNetworkCreateExecutor_inherits_witness :
  exists options,
    @NewDockerNetworkCreateExecutor sample_client "act-job"
      ["com.docker.network.driver.mtu"; "com.docker.network.bridge.icc"]
    = ([CallNetworkInspect "bridge" "local";
        CallNetworkCreate "act-job"
          (mkNetworkCreate "bridge" "local" (Some options))],
       None)
    /\ options !! "com.docker.network.driver.mtu" = Some "1500"
    /\ options !! "com.docker.network.bridge.name" = None.
Proof.
  destruct (@NewDockerNetworkCreateExecutor_inherits sample_client "act-job"
              ["com.docker.network.driver.mtu"; "com.docker.network.bridge.icc"]
              {[ "com.docker.network.driver.mtu" := "1500";
                 "com.docker.network.bridge.name" := "docker0" ]}
              eq_refl ltac:(discriminate) eq_refl)
    as (options & Heq & Hopts).
  exists options. split; [exact Heq|]. split.
  - apply Hopts. split; [left | vm_compute; reflexivity].
  - destruct (options !! "com.docker.network.bridge.name") as [val|] eqn:Hl;
      [|reflexivity].
    apply Hopts in Hl as [Hin _]. exfalso.
    apply elem_of_cons in Hin as [Hin|Hin]; [discriminate|].
    apply elem_of_cons in Hin as [Hin|Hin]; [discriminate|].
    apply elem_of_nil in Hin. exact Hin.
Defined.

Lemma NewDockerNetworkCreateExecutor_success_means_created_witness :
  exists options,
    CallNetworkCreate "act-job" options
      ∈ fst (@NewDockerNetworkCreateExecutor sample_client "act-job" [])
    /\ @NetworkCreate_error sample_client "act-job" options = None.
Proof.
  apply (proj1 (@NewDockerNetworkCreateExecutor_success_means_created
                  sample_client "act-job" [])).
  reflexivity.
Defined.

Lemma NewDockerNetworkCreateExecutor_inspects_iff_witness :
  @NewDockerNetworkCreateExecutor sample_client "act-job" []
  = ([CallNetworkCreate "act-job" (mkNetworkCreate "bridge" "local" None)],
     None).
Proof.
  apply (proj2 (@NewDockerNetworkCreateExecutor_inspects_iff
                  sample_client "act-job" [])).
  reflexivity.
Defined.

Lemma NewDockerNetworkCreateExecutor_keys_as_set_witness :
  @NewDockerNetworkCreateExecutor sample_client "act-job"
    ["com.docker.network.driver.mtu"; "com.docker.network.bridge.name";
     "com.docker.network.driver.mtu"]
  = @NewDockerNetworkCreateExecutor sample_client "act-job"
      ["com.docker.network.bridge.name"; "com.docker.network.driver.mtu"].
Proof.
  apply (@NewDockerNetworkCreateExecutor_keys_as_set sample_client).
  intros optKey. rewrite !elem_of_cons, !elem_of_nil. tauto.
Defined.

Lemma network_executors_confined_witness :
  call_confined_to "act-job" (CallNetworkRemove "act-job").
Proof.
  apply (@network_executors_confined sample_client "act-job" []).
  right. left.
Defined.

(** ** Runs without matrix points *)

Section PlanExecutorBounds.
Context `{Collaborators}.

(** X22: the bound handed to the parallel executor of a run never exceeds
    the number of its job executors; and when [GetMatrixes] fails for a run,
    the error is not returned: the run gets no job executor and a bound that
    is not positive. *)
Theorem range_Runs_bound_and_GetMatrixes_error (runner : runnerImpl)
    (run : Run) (maxJobNameLen : Z) (pipeline : list ParallelExecutor)
    (p : ParallelExecutor) :
  snd (range_Runs runner (maxJobNameLen, pipeline) run)
  = (pipeline ++ [p])%list ->
  (parallel p <= Z.of_nat (length (executors p)))%Z
  /\ (forall job err,
         GetMatrixes (evaluate_strategy runner run) = (job, Err err) ->
         executors p = [] /\ (parallel p <= 0)%Z).
Proof.
  intros Hp.
  destruct (range_Runs_spec runner run maxJobNameLen pipeline)
    as (p' & Heq & Hpar & Hlen & _).
  rewrite Heq in Hp. simpl in Hp. apply app_inj_tail in Hp as [_ ->].
  assert (Hbound : (parallel p <= Z.of_nat (length (executors p)))%Z).
  { rewrite Hpar, Hlen. unfold maxParallel_of.
    match goal with
    | |- context [Z.ltb ?a ?b] => destruct (Z.ltb_spec a b); lia
    end. }
  split; [exact Hbound|].
  intros job err Hget.
  assert (Hnil : snd (filtered_matrixes runner run) = []).
  { unfold filtered_matrixes. rewrite Hget. reflexivity. }
  rewrite Hnil in Hlen. destruct (executors p) eqn:He; [|discriminate].
  split; [reflexivity|]. simpl in Hbound. exact Hbound.
Qed.

End PlanExecutorBounds.

Lemma range_Runs_bound_and_GetMatrixes_error_witness :
  map (fun p => (parallel p, length (executors p)))
      (snd (@range_Runs collaborators_without_matrix sample_runner
              (0%Z, []) run_build_os))
  = [(0%Z, 0%nat)]
  /\ executors
       (hd (mkParallel 0 [])
           (snd (@range_Runs collaborators_without_matrix sample_runner
                   (0%Z, []) run_build_os)))
     = [].
Proof.
  split; [vm_compute; reflexivity|].
  apply (proj2 (@range_Runs_bound_and_GetMatrixes_error
                  collaborators_without_matrix sample_runner run_build_os
                  0%Z []
                  (hd (mkParallel 0 [])
                      (snd (@range_Runs collaborators_without_matrix
                              sample_runner (0%Z, []) run_build_os)))
                  eq_refl)
               (Run_Job run_build_os) "yaml: cannot decode the matrix" eq_refl).
Defined.

Lemma stage_pipeline_follows_runs_witness :
  exists p rest executor,
    snd (fold_left (@range_Runs sample_collaborators sample_runner)
                   [run_build_os; sample_run "lint" "" None] (0%Z, []))
    = p :: rest
    /\ length rest = 1%nat
    /\ length (executors p) = 3%nat
    /\ executors p !! 0%nat = Some executor
    /\ launch_JobID (executor 0%Z) = "build".
Proof.
  pose proof (@stage_pipeline_follows_runs sample_collaborators sample_runner
                (mkStage [run_build_os; sample_run "lint" "" None]) 0%Z)
    as Hall.
  cbn [Runs] in Hall.
  destruct (snd (fold_left (@range_Runs sample_collaborators sample_runner)
                           [run_build_os; sample_run "lint" "" None]
                           (0%Z, []))) as [|p rest];
    [inversion Hall|].
  apply Forall2_cons_1 in Hall as [[Hlen Hid] Hrest].
  apply Forall2_length in Hrest.
  destruct (executors p) as [|executor others] eqn:He;
    [vm_compute in Hlen; discriminate|].
  exists p, rest, executor. split; [reflexivity|].
  split; [symmetry; exact Hrest|].
  split; [rewrite He, Hlen; vm_compute; reflexivity|].
  split; [rewrite He; reflexivity|]. apply Hid. left.
Defined.

